(** * SBLP announcements: mailing-list curator and mailer

    A shallow embedding of [curate_mailing_list.py] and [email_sender.py].

    Conventions of the embedding.
    - A Python [str] is a [string]; its characters are the [ascii] values,
      the code points below 256.
    - A cell read by [csv.DictReader] is a string, or [None] when the line
      is shorter than the header ([restval]).  Overflow cells of a line that
      is longer than the header ([restkey]) are not represented.
    - A Python [dict] is an association list kept in insertion order, with
      at most one binding per key.
    - An exception is a value of [exn]; a call that may raise returns a
      [result].
    - A lazy iterator ([map], [filter]) is a [stream]: the items it yields,
      in order, ended by exhaustion or by the exception raised while the
      next item is computed.
    - Printing, the SMTP session and process exit are events of a trace.
    - What the libraries decide from the outside world or by parsing is a
      parameter: whether a destination can be opened, the rows
      [csv.DictReader] finds in a text, the text [email.message] gives back
      for an address header, the answers of the relay. *)

From Stdlib Require Import String Ascii List Bool Arith Lia.
Import ListNotations.
Open Scope string_scope.

(** ** Exceptions and results *)

Inductive exn : Type :=
| KeyError (key : string)
| IndexError
| AttributeError
| TypeError
| ValueError (wrong_fields : list string)
| HeaderError
| OSError (text : string)
| SMTPAuthenticationError (text : string)
| OtherError (text : string).

Inductive result (A : Type) : Type :=
| Ok (a : A)
| Raise (e : exn).

Arguments Ok {A} a.
Arguments Raise {A} e.

Definition bind {A B : Type} (r : result A) (k : A -> result B) : result B :=
  match r with
  | Ok a => k a
  | Raise e => Raise e
  end.

Notation "x <- r ;; k" := (bind r (fun x => k))
  (at level 61, r at next level, right associativity).

(** ** Lazy iterators *)

Inductive stream (A : Type) : Type :=
| SNil
| SCons (a : A) (rest : stream A)
| SRaise (e : exn).

Arguments SNil {A}.
Arguments SCons {A} a rest.
Arguments SRaise {A} e.

Fixpoint iter {A : Type} (l : list A) : stream A :=
  match l with
  | [] => SNil
  | a :: l' => SCons a (iter l')
  end.

(** [map(f, it)]: each item is computed when it is asked for. *)
Fixpoint lazy_map {A B : Type} (f : A -> result B) (it : stream A) : stream B :=
  match it with
  | SNil => SNil
  | SRaise e => SRaise e
  | SCons a rest =>
      match f a with
      | Ok b => SCons b (lazy_map f rest)
      | Raise e => SRaise e
      end
  end.

(** [filter(p, it)]. *)
Fixpoint lazy_filter {A : Type} (p : A -> result bool) (it : stream A) : stream A :=
  match it with
  | SNil => SNil
  | SRaise e => SRaise e
  | SCons a rest =>
      match p a with
      | Ok true => SCons a (lazy_filter p rest)
      | Ok false => lazy_filter p rest
      | Raise e => SRaise e
      end
  end.

(** The items yielded before the iterator stops. *)
Fixpoint yielded {A : Type} (it : stream A) : list A :=
  match it with
  | SNil => []
  | SRaise _ => []
  | SCons a rest => a :: yielded rest
  end.

(** How the iterator stops. *)
Fixpoint ending {A : Type} (it : stream A) : result unit :=
  match it with
  | SNil => Ok tt
  | SRaise e => Raise e
  | SCons _ rest => ending rest
  end.

(** [list(it)]. *)
Definition collect {A : Type} (it : stream A) : result (list A) :=
  match ending it with
  | Ok _ => Ok (yielded it)
  | Raise e => Raise e
  end.

(** ** Python strings *)

(** [s.split(sep, maxsplit)] for a one-character separator; [None] is no
    limit on the number of splits. *)
Fixpoint str_split (sep : ascii) (maxsplit : option nat) (s : string) : list string :=
  match s with
  | EmptyString => [""]
  | String c s' =>
      let keep :=
        match str_split sep maxsplit s' with
        | p :: ps => String c p :: ps
        | [] => [String c ""]
        end in
      if Ascii.eqb c sep then
        match maxsplit with
        | None => "" :: str_split sep None s'
        | Some (S n) => "" :: str_split sep (Some n) s'
        | Some O => keep
        end
      else keep
  end.

Fixpoint starts_with (p s : string) : bool :=
  match p, s with
  | EmptyString, _ => true
  | String a p', String b s' => Ascii.eqb a b && starts_with p' s'
  | String _ _, EmptyString => false
  end.

(** Left-to-right scan of [s.replace(old, new)] for a non-empty [old]:
    [skip] counts the characters of a match still to be passed over. *)
Fixpoint replace_scan (old new : string) (skip : nat) (s : string) : string :=
  match s with
  | EmptyString => ""
  | String c s' =>
      match skip with
      | S k => replace_scan old new k s'
      | O =>
          if starts_with old s
          then new ++ replace_scan old new (String.length old - 1) s'
          else String c (replace_scan old new 0 s')
      end
  end.

Fixpoint intersperse_after (new s : string) : string :=
  match s with
  | EmptyString => ""
  | String c s' => String c (new ++ intersperse_after new s')
  end.

(** [s.replace(old, new)]. *)
Definition str_replace (old new s : string) : string :=
  match old with
  | EmptyString => new ++ intersperse_after new s
  | String _ _ => replace_scan old new 0 s
  end.

(** The characters at which [str.splitlines] ends a line: LF, VT, FF, CR,
    FS, GS, RS and NEL. *)
Definition is_line_boundary (c : ascii) : bool :=
  let n := nat_of_ascii c in
  ((10 <=? n)%nat && (n <=? 13)%nat)%bool
  || ((28 <=? n)%nat && (n <=? 30)%nat)%bool
  || (n =? 133)%nat.

(** [len(s.splitlines()) > 1]: text goes on after the first line ending,
    CR LF being one ending. *)
Fixpoint multiline (s : string) : bool :=
  match s with
  | EmptyString => false
  | String c s' =>
      if is_line_boundary c then
        match s' with
        | EmptyString => false
        | String c' s'' =>
            if ((nat_of_ascii c =? 13)%nat && (nat_of_ascii c' =? 10)%nat)%bool
            then match s'' with EmptyString => false | String _ _ => true end
            else true
        end
      else multiline s'
  end.

Definition ascii_lower (c : ascii) : ascii :=
  let n := nat_of_ascii c in
  if ((65 <=? n)%nat && (n <=? 90)%nat)%bool then ascii_of_nat (n + 32) else c.

(** [s.lower()] on ASCII letters. *)
Fixpoint str_lower (s : string) : string :=
  match s with
  | EmptyString => ""
  | String c s' => String (ascii_lower c) (str_lower s')
  end.

(** ** Insertion-ordered dictionaries *)

Section PyDict.
Variables K V : Type.
Variable K_eq_dec : forall x y : K, {x = y} + {x <> y}.

Definition dict : Type := list (K * V).

Fixpoint dict_get (k : K) (d : dict) : option V :=
  match d with
  | [] => None
  | (k', v) :: d' => if K_eq_dec k k' then Some v else dict_get k d'
  end.

(** [d[k] = v]: an existing key keeps its position, a new key goes last. *)
Fixpoint dict_set (k : K) (v : V) (d : dict) : dict :=
  match d with
  | [] => [(k, v)]
  | (k', v') :: d' =>
      if K_eq_dec k k' then (k', v) :: d' else (k', v') :: dict_set k v d'
  end.

Definition dict_keys (d : dict) : list K := map fst d.
Definition dict_values (d : dict) : list V := map snd d.

Definition mem (k : K) (l : list K) : bool :=
  if in_dec K_eq_dec k l then true else false.

(** The distinct elements of [l], each at the place of its first occurrence. *)
Fixpoint first_seen (l : list K) : list K :=
  match l with
  | [] => []
  | x :: l' =>
      x :: filter (fun y => if K_eq_dec x y then false else true) (first_seen l')
  end.

(** The value paired with the last occurrence of [k] in [kvs]. *)
Fixpoint last_assoc (k : K) (kvs : list (K * V)) : option V :=
  match kvs with
  | [] => None
  | (k', v) :: rest =>
      match last_assoc k rest with
      | Some v' => Some v'
      | None => if K_eq_dec k k' then Some v else None
      end
  end.
End PyDict.

Arguments dict_get {K V} K_eq_dec k d.
Arguments dict_set {K V} K_eq_dec k v d.
Arguments dict_keys {K V} d.
Arguments dict_values {K V} d.
Arguments mem {K} K_eq_dec k l.
Arguments first_seen {K} K_eq_dec l.
Arguments last_assoc {K V} K_eq_dec k kvs.

(** ** Rows *)

Inductive cell : Type :=
| Str (s : string)
| PyNone.

Definition cell_eq_dec : forall x y : cell, {x = y} + {x <> y}.
Proof. decide equality; apply string_dec. Defined.

Arguments cell_eq_dec : simpl never.

Definition row : Type := dict string cell.

(** [row[key]]. *)
Definition getitem (key : string) (r : row) : result cell :=
  match dict_get string_dec key r with
  | Some v => Ok v
  | None => Raise (KeyError key)
  end.

Definition setitem (key : string) (v : cell) (r : row) : row :=
  dict_set string_dec key v r.

Definition cell_eqb (a b : cell) : bool :=
  if cell_eq_dec a b then true else false.

(** [l[0]] and [l[-1]]. *)
Definition index_first (l : list string) : result string :=
  match l with
  | [] => Raise IndexError
  | x :: _ => Ok x
  end.

Definition index_last (l : list string) : result string :=
  match rev l with
  | [] => Raise IndexError
  | x :: _ => Ok x
  end.

(** ** Files *)

(** The files the process can see: the text at a path, [None] where no file
    exists.  Other failures of [open] are not represented. *)
Definition filesystem : Type := string -> option string.

(** How a reading function ends: with its value, by [sys.exit] after a line
    on the error stream, or by an exception that nothing catches. *)
Inductive reading (A : Type) : Type :=
| ReadOk (a : A)
| ReadExit (diagnostic : string) (code : nat)
| ReadRaise (e : exn).

Arguments ReadOk {A} a.
Arguments ReadExit {A} diagnostic code.
Arguments ReadRaise {A} e.

(** ** curate_mailing_list.py *)

Module Curator.

(** The dictionary of the comprehension [{row['Email']: row for row in data}],
    filled row by row. *)
Fixpoint index_by_email (data : list row) (d : dict cell row)
  : result (dict cell row) :=
  match data with
  | [] => Ok d
  | r :: rest =>
      k <- getitem "Email" r ;;
      index_by_email rest (dict_set cell_eq_dec k r d)
  end.

Definition remove_duplicates (data : list row) : result (list row) :=
  d <- index_by_email data [] ;;
  Ok (dict_values d).

(** [transform] of [split_names]. *)
Definition split_names_transform (r : row) : result row :=
  nome <- getitem "Nome" r ;;
  match nome with
  | PyNone => Raise AttributeError
  | Str s =>
      let parts := str_split " " (Some 1) s in
      first_name <- index_first parts ;;
      let surname :=
        if (1 <? List.length parts)%nat then nth 1 parts "" else "" in
      Ok (setitem "Surname" (Str surname)
            (setitem "FirstName" (Str first_name) r))
  end.

Definition split_names (data : stream row) : stream row :=
  lazy_map split_names_transform data.

(** [transform] of [find_country_names]. *)
Definition find_country_names_transform (r : row) : result row :=
  email <- getitem "Email" r ;;
  match email with
  | PyNone => Raise AttributeError
  | Str s =>
      tld <- index_last (str_split "." None s) ;;
      let country := if (String.length tld =? 2)%nat then tld else "br" in
      Ok (setitem "Country" (Str country) r)
  end.

Definition find_country_names (data : stream row) : stream row :=
  lazy_map find_country_names_transform data.

(** *** Output *)

Inductive sink : Type :=
| Stdout
| File (path : string).

(** What has reached the destination: the records handed to the CSV
    writer, oldest first, and whether the handle has been closed. *)
Record output : Type := mkOutput {
  out_sink : sink;
  out_records : list (list string);
  out_closed : bool
}.

Definition fieldnames : list string :=
  ["Nome"; "FirstName"; "Surname"; "Email"; "Country"].

(** The writer emits [None] as the empty string. *)
Definition cell_text (c : cell) : string :=
  match c with
  | Str s => s
  | PyNone => ""
  end.

(** [DictWriter._dict_to_list] with [extrasaction='raise'], [restval=''].
    The writer collects the wrong fields in a set, whose order is not
    fixed; they are listed here in the order of the row, and the
    statements below use the list only through its members. *)
Definition dict_to_list (r : row) : result (list string) :=
  let wrong_fields :=
    filter (fun k => negb (mem string_dec k fieldnames)) (dict_keys r) in
  match wrong_fields with
  | _ :: _ => Raise (ValueError wrong_fields)
  | [] =>
      Ok (map (fun k => match dict_get string_dec k r with
                        | Some v => cell_text v
                        | None => ""
                        end) fieldnames)
  end.

(** [writer.writerows(data)]: rows are pulled and written one at a time. *)
Fixpoint writerows (data : stream row) (written : list (list string))
  : list (list string) * result unit :=
  match data with
  | SNil => (written, Ok tt)
  | SRaise e => (written, Raise e)
  | SCons r rest =>
      match dict_to_list r with
      | Ok record => writerows rest (written ++ [record])%list
      | Raise e => (written, Raise e)
      end
  end.

Definition is_stdout (destination : string) : bool :=
  let d := str_lower destination in
  String.eqb d "-" || String.eqb d "stdout".

Section Destination.
(** [open(destination, mode='w', ...)]: [None] when the file opens, the text
    of the [OSError] raised otherwise (an empty name, a missing directory,
    a directory, no permission). *)
Variable open_error : string -> option string.

(** [writeheader], [writerows] and the [finally] on a handle that exists. *)
Definition write_and_close (out_handle : sink) (close : bool)
           (data : stream row) : option output * result unit :=
  let header := [fieldnames] in
  let (records, r) := writerows data header in
  (Some (mkOutput out_handle records close), r).

(** No output exists when [open] raises: the call stands before the [try]. *)
Definition print_output_file (destination : string) (data : stream row)
  : option output * result unit :=
  if is_stdout destination then write_and_close Stdout false data
  else
    match open_error destination with
    | Some text => (None, Raise (OSError text))
    | None => write_and_close (File destination) true data
    end.

(** [run_pipeline] on the rows that [read_input_file] returned.  No output
    exists when the run stops before the destination is opened. *)
Definition run_pipeline (reader : list row) (output_file_name : string)
  : option output * result unit :=
  match remove_duplicates reader with
  | Raise e => (None, Raise e)
  | Ok tmp0 =>
      let tmp1 := split_names (iter tmp0) in
      let tmp2 := find_country_names tmp1 in
      print_output_file output_file_name tmp2
  end.

(** The three transformations, run to the end as a second pass over
    in-memory rows would run them. *)
Definition curate (data : list row) : result (list row) :=
  tmp0 <- remove_duplicates data ;;
  collect (find_country_names (split_names (iter tmp0))).

(** *** Reading and the command line *)

Inductive status : Type :=
| Finished
| Exited (code : nat)
| Crashed (e : exn).

(** A run of the script: the lines on the error stream, the destination if
    it was opened, and how the process ends. *)
Record run : Type := mkRun {
  run_stderr : list string;
  run_output : option output;
  run_status : status
}.

Section Files.
(** [list(csv.DictReader(f))] on the text of a file. *)
Variable DictReader : string -> result (list row).
Variable fs : filesystem.

Definition read_input_file (filename : string) : reading (list row) :=
  match fs filename with
  | None => ReadExit ("Error: File '" ++ filename ++ "' not found.") 1
  | Some text =>
      match DictReader text with
      | Ok rows => ReadOk rows
      | Raise e => ReadRaise e
      end
  end.

(** [run_pipeline] from the file names. *)
Definition run_pipeline_files (input_file_name output_file_name : string) : run :=
  match read_input_file input_file_name with
  | ReadExit diagnostic code => mkRun [diagnostic] None (Exited code)
  | ReadRaise e => mkRun [] None (Crashed e)
  | ReadOk reader =>
      let (o, r) := run_pipeline reader output_file_name in
      mkRun [] o (match r with Ok _ => Finished | Raise e => Crashed e end)
  end.

(** The [__main__] block; [argv] is [sys.argv]. *)
Definition main (argv : list string) : run :=
  if negb (List.length argv =? 3)%nat then
    mkRun ["Usage: python pipeline.py <input.csv> <output_or_stdout>"] None
          (Exited 1)
  else run_pipeline_files (nth 1 argv "") (nth 2 argv "").
End Files.
End Destination.

End Curator.

(** ** email_sender.py *)

Module Mailer.

(** The values that [create_email] stores in the message. *)
Record EmailMessage : Type := mkEmail {
  Subject : string;
  From : string;
  To : cell;
  Body : string
}.

Definition filter_brazilians (data : stream row) : stream row :=
  lazy_filter (fun r => c <- getitem "Country" r ;; Ok (cell_eqb c (Str "br")))
              data.

(** [msg[name] = value] under [EmailPolicy]: a string that
    [str.splitlines] cuts into more than one line is refused with
    [ValueError]; any other value is stored. *)
Definition header_store (value : cell) : result cell :=
  match value with
  | Str s => if multiline s then Raise HeaderError else Ok value
  | PyNone => Ok value
  end.

Definition create_email (r : row) (template sender_email : string)
  : result EmailMessage :=
  _ <- header_store (Str sender_email) ;;
  email <- getitem "Email" r ;;
  to <- header_store email ;;
  first_name <- getitem "FirstName" r ;;
  match first_name with
  | PyNone => Raise TypeError
  | Str f =>
      let body := str_replace "<FirstName>" f template in
      Ok (mkEmail "Chamada de Trabalhos: SBLP 2026" sender_email to body)
  end.

(** *** The send step *)

(** What the process does to the outside, in order.  The SMTP events are
    the calls made on the session, whatever the server answers. *)
Inductive event : Type :=
| EPrint (line : string)
| EPrintErr (line : string)
| EGetpass (prompt : string)
| EConnect (host : string) (port : nat)
| EStartTLS
| ELogin (user : string) (password : option string)
| ESendMessage (msg : EmailMessage)
| ESleep (seconds : nat)
| EClose.

(** [EClose] is the [with] block being left: QUIT is sent and the
    connection is closed. *)

Inductive outcome : Type :=
| Returns
| Exits (code : nat)
| Uncaught (e : exn).

Definition exit_code (o : outcome) : nat :=
  match o with
  | Returns => 0
  | Exits code => code
  | Uncaught _ => 1
  end.

(** The relay's answers: [None] when a call succeeds, the exception that
    the call raises otherwise.  [quit_reply] is the answer to the QUIT sent
    when the [with] block is left: [None] when it is 221 or the relay has
    gone, the text of the exception that [SMTP.__exit__] raises otherwise
    (an [SMTPResponseException] or a socket error, never an authentication
    error). *)
Record smtp_server : Type := mkServer {
  connect_reply : option exn;
  starttls_reply : option exn;
  login_reply : string -> option string -> option exn;
  send_reply : nat -> EmailMessage -> option exn;
  quit_reply : option string
}.

(** [str(e)]. *)
Definition exn_text (e : exn) : string :=
  match e with
  | KeyError key => "'" ++ key ++ "'"
  | IndexError => "list index out of range"
  | AttributeError => "'NoneType' object has no attribute 'split'"
  | TypeError => "replace() argument 2 must be str, not None"
  | ValueError wrong =>
      "dict contains fields not in fieldnames: "
      ++ String.concat ", " (map (fun k => "'" ++ k ++ "'") wrong)
  | HeaderError =>
      "Header values may not contain linefeed or carriage return characters"
  | OSError text => text
  | SMTPAuthenticationError text => text
  | OtherError text => text
  end.

Section Rendering.
(** [str(msg['To'])] for the value stored: the address list as
    [email.headerregistry] parses it and writes it back. *)
Variable header_text : cell -> string.

(** The [for] loop of dry-run mode. *)
Fixpoint report_all (messages : stream EmailMessage) : list event * outcome :=
  match messages with
  | SNil => ([], Returns)
  | SRaise e => ([], Uncaught e)
  | SCons msg rest =>
      let (t, o) := report_all rest in
      (EPrint ("TO: " ++ header_text (To msg) ++ " | SUBJ: " ++ Subject msg) :: t,
       o)
  end.

(** The [for] loop of live mode; [i] counts the messages already sent. *)
Fixpoint send_all (server : smtp_server) (i : nat)
         (messages : stream EmailMessage) : list event * option exn :=
  match messages with
  | SNil => ([], None)
  | SRaise e => ([], Some e)
  | SCons msg rest =>
      match send_reply server i msg with
      | Some e => ([ESendMessage msg], Some e)
      | None =>
          let (t, r) := send_all server (S i) rest in
          (ESendMessage msg
             :: EPrint ("Sent to: " ++ header_text (To msg))
             :: ESleep 2 :: t, r)
      end
  end.

(** The two [except] clauses. *)
Definition handle (e : exn) : list event * outcome :=
  match e with
  | SMTPAuthenticationError _ => ([EPrintErr "Invalid password"], Exits 1)
  | _ =>
      ([EPrintErr ("An unexpected error occurred: " ++ exn_text e)], Exits 1)
  end.

(** [SMTP.__exit__]: what leaves the [with] block when [pending] was on
    its way out.  An exception raised by QUIT takes the place of the
    pending one. *)
Definition leave (server : smtp_server) (pending : option exn) : option exn :=
  match quit_reply server with
  | Some text => Some (OtherError text)
  | None => pending
  end.

(** The body of the [try]: the session is closed when the [with] block is
    left, also by an exception. *)
Definition session (server : smtp_server) (messages : stream EmailMessage)
           (host user : string) (password : option string)
  : list event * option exn :=
  match connect_reply server with
  | Some e => ([EConnect host 587], Some e)
  | None =>
      match starttls_reply server with
      | Some e => ([EConnect host 587; EStartTLS; EClose], leave server (Some e))
      | None =>
          match login_reply server user password with
          | Some e =>
              ([EConnect host 587; EStartTLS; ELogin user password; EClose],
               leave server (Some e))
          | None =>
              let (t, r) := send_all server 0 messages in
              ((EConnect host 587 :: EStartTLS :: ELogin user password :: t)
                 ++ [EClose], leave server r)%list
          end
      end
  end.

Definition send_batch (server : smtp_server) (messages : stream EmailMessage)
           (host user : string) (password : option string) (dry_run : bool)
  : list event * outcome :=
  if dry_run then
    let (t, o) := report_all messages in
    (EPrint "--- DRY RUN MODE ACTIVE (No emails will be sent) ---" :: t, o)
  else
    let (t, r) := session server messages host user password in
    match r with
    | None => (t, Returns)
    | Some e => let (t', o) := handle e in ((t ++ t')%list, o)
    end.

Definition SENDER_ADDR : string := "fernando@dcc.ufmg.br".

(** [run_pipeline] on the rows and the template already read; [typed] is
    what the operator enters at the password prompt. *)
Definition run_pipeline (server : smtp_server) (typed : string)
           (data : list row) (template sender : string) (dry_run : bool)
  : list event * outcome :=
  let brazilians := filter_brazilians (iter data) in
  let email_objs :=
    lazy_map (fun r => create_email r template sender) brazilians in
  let prompt :=
    if dry_run then [] else [EGetpass ("Password for " ++ sender ++ ": ")] in
  let pwd := if dry_run then None else Some typed in
  let (t, o) := send_batch server email_objs "smtp.dcc.ufmg.br" sender pwd dry_run in
  ((prompt ++ t)%list, o).

(** *** Reading *)

Section Files.
(** [list(csv.DictReader(f))] on the text of a file. *)
Variable DictReader : string -> result (list row).
Variable fs : filesystem.

Definition read_csv_data (filename : string) : reading (list row) :=
  match fs filename with
  | None => ReadExit ("Error: " ++ filename ++ " not found.") 1
  | Some text =>
      match DictReader text with
      | Ok data => ReadOk data
      | Raise e => ReadRaise e
      end
  end.

Definition read_template (filename : string) : reading string :=
  match fs filename with
  | None => ReadExit ("Error: " ++ filename ++ " not found.") 1
  | Some content => ReadOk content
  end.

(** [run_pipeline] from the file names. *)
Definition run_pipeline_files (server : smtp_server) (typed : string)
           (csv_file template_file sender : string) (dry_run : bool)
  : list event * outcome :=
  match read_csv_data csv_file with
  | ReadExit diagnostic code => ([EPrintErr diagnostic], Exits code)
  | ReadRaise e => ([], Uncaught e)
  | ReadOk data =>
      match read_template template_file with
      | ReadExit diagnostic code => ([EPrintErr diagnostic], Exits code)
      | ReadRaise e => ([], Uncaught e)
      | ReadOk template => run_pipeline server typed data template sender dry_run
      end
  end.
End Files.
End Rendering.

End Mailer.

(** ** Vocabulary of the statements *)

(** The Email of a row, when it has one. *)
Definition row_email (r : row) : option cell := dict_get string_dec "Email" r.

Definition option_cell_eq_dec : forall x y : option cell, {x = y} + {x <> y}.
Proof. decide equality; apply cell_eq_dec. Defined.

Arguments option_cell_eq_dec : simpl never.

(** The last row of [data] whose Email is [e]. *)
Definition last_row_with (e : option cell) (data : list row) : option row :=
  last_assoc option_cell_eq_dec e (map (fun r => (row_email r, r)) data).

(** The key under which [remove_duplicates] files a row that has an Email. *)
Definition email_key (r : row) : cell :=
  match row_email r with
  | Some c => c
  | None => PyNone
  end.

(** The rows of [l], each paired with its key. *)
Definition keyed (l : list row) : list (cell * row) :=
  map (fun r => (email_key r, r)) l.

(** The dictionary obtained by storing the pairs [kvs] into [d], in order. *)
Definition dict_of {K V : Type} (K_eq_dec : forall x y : K, {x = y} + {x <> y})
           (kvs : list (K * V)) (d : dict K V) : dict K V :=
  fold_left (fun acc kv => dict_set K_eq_dec (fst kv) (snd kv) acc) kvs d.

(** [c in s]. *)
Fixpoint has_char (c : ascii) (s : string) : bool :=
  match s with
  | EmptyString => false
  | String x s' => Ascii.eqb x c || has_char c s'
  end.

(** The reading of an address as local-part, at sign, domain. *)
Definition local_part (email : string) : string :=
  match str_split "@" (Some 1) email with
  | p :: _ => p
  | [] => ""
  end.

Definition email_domain (email : string) : string :=
  match str_split "@" (Some 1) email with
  | _ :: d :: _ => d
  | _ => ""
  end.

(** The Country of an address as the specification words it: the last
    dot-separated segment of the domain, the local-part when the address
    has no dot; kept when it has 2 characters, replaced by "br" otherwise. *)
Definition spec_tld (email : string) : string :=
  if has_char "." email
  then last (str_split "." None (email_domain email)) ""
  else local_part email.

Definition spec_country (email : string) : string :=
  let tld := spec_tld email in
  if (String.length tld =? 2)%nat then tld else "br".

(** One row through [split_names] and then [find_country_names]. *)
Definition curate_row (r : row) : result row :=
  r1 <- Curator.split_names_transform r ;;
  Curator.find_country_names_transform r1.

(** The text of a field of a row in the output: empty when the row lacks
    the field or holds [None] there. *)
Definition field_text (key : string) (r : row) : string :=
  match dict_get string_dec key r with
  | Some v => Curator.cell_text v
  | None => ""
  end.

(** The five output columns of a row. *)
Definition record_of (r : row) : list string :=
  [field_text "Nome" r; field_text "FirstName" r; field_text "Surname" r;
   field_text "Email" r; field_text "Country" r].

(** [c] is the letter [p] or its capital; [p] is not a capital letter. *)
Definition same_letter (p c : ascii) : bool :=
  Ascii.eqb c p
  || (((65 <=? nat_of_ascii c)%nat && (nat_of_ascii c <=? 90)%nat)%bool
      && (nat_of_ascii c + 32 =? nat_of_ascii p)%nat)%bool.

(** [s] spells [word] up to the case of its letters. *)
Fixpoint spells (word s : string) : bool :=
  match word, s with
  | EmptyString, EmptyString => true
  | String p word', String c s' => same_letter p c && spells word' s'
  | _, _ => false
  end.

(** The name stands for the standard output: it spells "-" or "stdout",
    in any letter case. *)
Definition names_stdout (name : string) : bool :=
  spells "-" name || spells "stdout" name.

(** A row as the curator expects it: Nome and Email are strings. *)
Definition curator_row (r : row) : Prop :=
  (exists nome, getitem "Nome" r = Ok (Str nome)) /\
  (exists email, getitem "Email" r = Ok (Str email)).

(** The output went where [name] says, and a file was closed. *)
Definition destination_of (name : string) : Curator.output -> Prop :=
  fun o =>
    Curator.out_sink o =
      (if names_stdout name then Curator.Stdout else Curator.File name) /\
    Curator.out_closed o = negb (names_stdout name).






(** The value stored in a header, read as it is: a string is itself,
    [None] is the word None. *)
Definition verbatim_header (c : cell) : string :=
  match c with
  | Str s => s
  | PyNone => "None"
  end.

(** A destination that opens whatever its name. *)
Definition always_opens : string -> option string := fun _ => None.

(** The destination is the standard output or a file that opens. *)
Definition opens (open_error : string -> option string) (name : string) : Prop :=
  names_stdout name = true \/ open_error name = None.

(** The messages handed to [send_message], in order. *)
Fixpoint send_calls (t : list Mailer.event) : list Mailer.EmailMessage :=
  match t with
  | [] => []
  | Mailer.ESendMessage msg :: t' => msg :: send_calls t'
  | _ :: t' => send_calls t'
  end.

(** Events that touch the network. *)
Definition is_network (e : Mailer.event) : bool :=
  match e with
  | Mailer.EConnect _ _ | Mailer.EStartTLS | Mailer.ELogin _ _
  | Mailer.ESendMessage _ | Mailer.EClose => true
  | _ => false
  end.

Definition dry_run_banner : Mailer.event :=
  Mailer.EPrint "--- DRY RUN MODE ACTIVE (No emails will be sent) ---".

(** A dry-run line for a recipient and a subject. *)
Definition recipient_line (recipient subject : string) : Mailer.event :=
  Mailer.EPrint ("TO: " ++ recipient ++ " | SUBJ: " ++ subject).

(** The dry-run line of a message: its To header as [header_text] gives it
    back, and its subject. *)
Definition report_line (header_text : cell -> string)
           (msg : Mailer.EmailMessage) : Mailer.event :=
  recipient_line (header_text (Mailer.To msg)) (Mailer.Subject msg).

(** What a live run does for a message the relay accepts. *)
Definition sent_block (header_text : cell -> string)
           (msg : Mailer.EmailMessage) : list Mailer.event :=
  [Mailer.ESendMessage msg;
   Mailer.EPrint ("Sent to: " ++ header_text (Mailer.To msg));
   Mailer.ESleep 2].

(** How a run ends when its message iterator ends with [r]. *)
Definition dry_run_end (r : result unit) : Mailer.outcome :=
  match r with
  | Ok _ => Mailer.Returns
  | Raise e => Mailer.Uncaught e
  end.

Definition live_end (r : result unit) : list Mailer.event * Mailer.outcome :=
  match r with
  | Ok _ => ([], Mailer.Returns)
  | Raise e => Mailer.handle e
  end.

Definition is_stderr (e : Mailer.event) : bool :=
  match e with
  | Mailer.EPrintErr _ => true
  | _ => false
  end.

(** The events a live [send_batch] for [host], [user] and [password] may
    produce. *)
Definition live_event (host user : string) (password : option string)
           (e : Mailer.event) : Prop :=
  match e with
  | Mailer.EConnect h port => h = host /\ port = 587
  | Mailer.ELogin u p => u = user /\ p = password
  | Mailer.ESleep seconds => seconds = 2
  | Mailer.EGetpass _ => False
  | _ => True
  end.

(** The iterator that yields the items of [l] and then goes on as [s]. *)
Fixpoint yield_then {A : Type} (l : list A) (s : stream A) : stream A :=
  match l with
  | [] => s
  | a :: l' => SCons a (yield_then l' s)
  end.

(** * Facts *)

Section Facts.
Variable open_error : string -> option string.
Variable header_text : cell -> string.

#[local] Set Default Proof Using "Type".

(** ** Dictionaries *)

Section PyDictFacts.
Variables K V : Type.
Variable K_eq_dec : forall x y : K, {x = y} + {x <> y}.

Local Notation "'dget'" := (dict_get K_eq_dec).
Local Notation "'dset'" := (dict_set K_eq_dec).
Local Notation "'differs' x" := (fun y => if K_eq_dec x y then false else true) (at level 10, x at level 9).

Lemma dict_get_set_same (k : K) (v : V) (d : dict K V) :
  dget k (dset k v d) = Some v.
Proof.
  induction d as [|[k' v'] d IH]; simpl.
  - destruct (K_eq_dec k k); congruence.
  - destruct (K_eq_dec k k') as [E|N]; simpl.
    + destruct (K_eq_dec k k'); congruence.
    + destruct (K_eq_dec k k'); congruence.
Qed.

Lemma dict_get_set_other (k k' : K) (v : V) (d : dict K V) :
  k <> k' -> dget k' (dset k v d) = dget k' d.
Proof.
  intros Hne. induction d as [|[k0 v0] d IH]; simpl.
  - destruct (K_eq_dec k' k); congruence.
  - destruct (K_eq_dec k k0) as [E|N]; simpl.
    + subst k0. destruct (K_eq_dec k' k); congruence.
    + destruct (K_eq_dec k' k0); congruence.
Qed.

Lemma dict_set_get_id (k : K) (v : V) (d : dict K V) :
  dget k d = Some v -> dset k v d = d.
Proof.
  induction d as [|[k' v'] d IH]; simpl; intros H.
  - discriminate.
  - destruct (K_eq_dec k k') as [E|N].
    + congruence.
    + f_equal. auto.
Qed.

Lemma dict_get_In (k : K) (v : V) (d : dict K V) :
  dget k d = Some v -> In (k, v) d.
Proof.
  induction d as [|[k' v'] d IH]; simpl; intros H.
  - discriminate.
  - destruct (K_eq_dec k k') as [E|N].
    + left. congruence.
    + right. auto.
Qed.

Lemma dict_In_get (k : K) (v : V) (d : dict K V) :
  NoDup (dict_keys d) -> In (k, v) d -> dget k d = Some v.
Proof.
  induction d as [|[k' v'] d IH]; simpl; intros Hnd Hin.
  - contradiction.
  - inversion Hnd as [|? ? Hnotin Hnd']; subst.
    destruct Hin as [E|Hin].
    + inversion E; subst. destruct (K_eq_dec k k); congruence.
    + destruct (K_eq_dec k k') as [E|N].
      * subst k'. exfalso. apply Hnotin.
        change k with (fst (k, v)). apply in_map. exact Hin.
      * auto.
Qed.

Lemma dict_keys_set (k : K) (v : V) (d : dict K V) :
  dict_keys (dset k v d) =
  if mem K_eq_dec k (dict_keys d) then dict_keys d
  else (dict_keys d ++ [k])%list.
Proof.
  unfold mem, dict_keys.
  induction d as [|[k' v'] d IH]; simpl.
  - reflexivity.
  - destruct (K_eq_dec k k') as [E|N]; simpl.
    + destruct (K_eq_dec k' k); [reflexivity | congruence].
    + destruct (K_eq_dec k' k) as [E'|N']; [congruence|].
      rewrite IH. destruct (in_dec K_eq_dec k (map fst d)); reflexivity.
Qed.

Lemma mem_true_iff (k : K) (l : list K) : mem K_eq_dec k l = true <-> In k l.
Proof.
  unfold mem. destruct (in_dec K_eq_dec k l); split; intros; auto; discriminate.
Qed.

Lemma mem_false_iff (k : K) (l : list K) : mem K_eq_dec k l = false <-> ~ In k l.
Proof.
  unfold mem. destruct (in_dec K_eq_dec k l); split; intros; auto;
    try discriminate; contradiction.
Qed.

Lemma In_first_seen (x : K) (l : list K) : In x (first_seen K_eq_dec l) <-> In x l.
Proof.
  induction l as [|y l IH]; simpl.
  - tauto.
  - rewrite filter_In, IH. destruct (K_eq_dec y x); split; intros H.
    + left. assumption.
    + left. assumption.
    + destruct H as [H|[H _]]; [left | right]; assumption.
    + destruct H as [H|H]; [left; assumption | right; split; auto].
Qed.

Lemma NoDup_first_seen (l : list K) : NoDup (first_seen K_eq_dec l).
Proof.
  induction l as [|y l IH]; simpl.
  - constructor.
  - constructor.
    + rewrite filter_In. intros [_ H]. destruct (K_eq_dec y y); congruence.
    + apply NoDup_filter. exact IH.
Qed.

Lemma first_seen_NoDup_id (l : list K) : NoDup l -> first_seen K_eq_dec l = l.
Proof.
  induction l as [|y l IH]; simpl; intros H.
  - reflexivity.
  - inversion H as [|? ? Hnotin Hnd]; subst. rewrite IH by assumption.
    f_equal. apply forallb_filter_id. apply forallb_forall.
    intros x Hx. destruct (K_eq_dec y x); [subst; contradiction | reflexivity].
Qed.

Lemma last_assoc_In (k : K) (v : V) (kvs : list (K * V)) :
  last_assoc K_eq_dec k kvs = Some v -> In (k, v) kvs.
Proof.
  induction kvs as [|[k' v'] kvs IH]; simpl; intros H.
  - discriminate.
  - destruct (last_assoc K_eq_dec k kvs) as [w|].
    + right. apply IH. congruence.
    + destruct (K_eq_dec k k'); [left; congruence | discriminate].
Qed.

Lemma dict_get_dict_of (k : K) (kvs : list (K * V)) (d : dict K V) :
  dget k (dict_of K_eq_dec kvs d) =
  match last_assoc K_eq_dec k kvs with
  | Some v => Some v
  | None => dget k d
  end.
Proof.
  revert d. induction kvs as [|[k' v'] kvs IH]; intros d; simpl.
  - reflexivity.
  - unfold dict_of in *. simpl. rewrite IH.
    destruct (last_assoc K_eq_dec k kvs) as [w|]; [reflexivity|].
    destruct (K_eq_dec k k') as [E|N].
    + subst k'. apply dict_get_set_same.
    + apply dict_get_set_other. congruence.
Qed.

Lemma filter_absent_differs (k : K) (ks l : list K) :
  In k ks ->
  filter (fun y => negb (mem K_eq_dec y ks)) (filter (differs k) l) =
  filter (fun y => negb (mem K_eq_dec y ks)) l.
Proof.
  intros Hin. induction l as [|y l IH]; simpl.
  - reflexivity.
  - destruct (K_eq_dec k y) as [E|N]; simpl.
    + subst y. rewrite IH.
      replace (mem K_eq_dec k ks) with true; [reflexivity|].
      symmetry. apply mem_true_iff. exact Hin.
    + rewrite IH. reflexivity.
Qed.

Lemma filter_absent_snoc (k : K) (ks l : list K) :
  filter (fun y => negb (mem K_eq_dec y (ks ++ [k]))) l =
  filter (fun y => negb (mem K_eq_dec y ks)) (filter (differs k) l).
Proof.
  induction l as [|y l IH]; simpl.
  - reflexivity.
  - destruct (K_eq_dec k y) as [E|N]; simpl.
    + subst y. rewrite <- IH.
      replace (mem K_eq_dec k (ks ++ [k])) with true; [reflexivity|].
      symmetry. apply mem_true_iff. apply in_or_app. right. left. reflexivity.
    + rewrite <- IH.
      replace (mem K_eq_dec y (ks ++ [k])) with (mem K_eq_dec y ks); [reflexivity|].
      destruct (mem K_eq_dec y ks) eqn:Hm.
      * symmetry. apply mem_true_iff. apply in_or_app. left.
        apply mem_true_iff. exact Hm.
      * symmetry. apply mem_false_iff. intros Hin.
        apply in_app_or in Hin. destruct Hin as [Hin|[Hin|[]]].
        -- apply mem_false_iff in Hm. contradiction.
        -- congruence.
Qed.

Lemma dict_keys_dict_of (kvs : list (K * V)) (d : dict K V) :
  dict_keys (dict_of K_eq_dec kvs d) =
  (dict_keys d ++
   filter (fun y => negb (mem K_eq_dec y (dict_keys d)))
          (first_seen K_eq_dec (map fst kvs)))%list.
Proof.
  revert d. induction kvs as [|[k v] kvs IH]; intros d.
  - simpl. rewrite app_nil_r. reflexivity.
  - unfold dict_of in *. simpl fold_left. rewrite IH. rewrite dict_keys_set.
    simpl map. simpl first_seen. simpl filter.
    destruct (mem K_eq_dec k (dict_keys d)) eqn:Hm; simpl.
    + rewrite filter_absent_differs; [reflexivity|].
      apply mem_true_iff. exact Hm.
    + rewrite filter_absent_snoc. rewrite <- app_assoc. reflexivity.
Qed.

Lemma dict_keys_dict_of_empty (kvs : list (K * V)) :
  dict_keys (dict_of K_eq_dec kvs []) = first_seen K_eq_dec (map fst kvs).
Proof.
  rewrite dict_keys_dict_of. simpl.
  apply forallb_filter_id. apply forallb_forall. intros x _. reflexivity.
Qed.
End PyDictFacts.

(** ** remove_duplicates *)

Section RemoveDuplicates.
Variable data : list row.
Hypothesis has_email : Forall (fun r => row_email r <> None) data.

Lemma row_email_key (r : row) : row_email r <> None -> row_email r = Some (email_key r).
Proof.
  unfold email_key. destruct (row_email r); [reflexivity | congruence].
Qed.

Lemma index_by_email_dict_of (l : list row) (d : dict cell row) :
  Forall (fun r => row_email r <> None) l ->
  Curator.index_by_email l d = Ok (dict_of cell_eq_dec (keyed l) d).
Proof.
  revert d. induction l as [|r l IH]; intros d Hl; simpl.
  - reflexivity.
  - inversion Hl as [|? ? Hr Hl']; subst.
    unfold getitem. fold (row_email r).
    rewrite (row_email_key r Hr). simpl. rewrite IH by assumption. reflexivity.
Qed.

Lemma last_row_with_keyed (l : list row) (k : cell) :
  Forall (fun r => row_email r <> None) l ->
  last_row_with (Some k) l = last_assoc cell_eq_dec k (keyed l).
Proof.
  unfold last_row_with. induction l as [|r l IH]; intros Hl; simpl.
  - reflexivity.
  - inversion Hl as [|? ? Hr Hl']; subst. rewrite IH by assumption.
    destruct (last_assoc cell_eq_dec k (keyed l)); [reflexivity|].
    rewrite (row_email_key r Hr).
    destruct (option_cell_eq_dec (Some k) (Some (email_key r)));
      destruct (cell_eq_dec k (email_key r)); congruence.
Qed.

Lemma first_seen_email_keys (l : list cell) :
  first_seen option_cell_eq_dec (map Some l) = map Some (first_seen cell_eq_dec l).
Proof.
  induction l as [|c l IH]; simpl.
  - reflexivity.
  - f_equal. rewrite IH. clear IH.
    induction (first_seen cell_eq_dec l) as [|y ys IHy]; simpl.
    + reflexivity.
    + destruct (option_cell_eq_dec (Some c) (Some y));
        destruct (cell_eq_dec c y); try congruence; simpl; rewrite IHy; reflexivity.
Qed.

Lemma remove_duplicates_entries (k : cell) (r : row) :
  In (k, r) (dict_of cell_eq_dec (keyed data) []) ->
  last_assoc cell_eq_dec k (keyed data) = Some r /\ k = email_key r /\ In r data.
Proof.
  intros Hin.
  assert (Hnd : NoDup (dict_keys (dict_of cell_eq_dec (keyed data) []))).
  { rewrite dict_keys_dict_of_empty. apply NoDup_first_seen. }
  pose proof (@dict_In_get _ _ cell_eq_dec _ _ _ Hnd Hin) as Hget.
  rewrite dict_get_dict_of in Hget. simpl in Hget.
  destruct (last_assoc cell_eq_dec k (keyed data)) as [w|] eqn:Hlast;
    [|discriminate].
  injection Hget as ->. split; [reflexivity|].
  apply last_assoc_In in Hlast. unfold keyed in Hlast.
  apply in_map_iff in Hlast. destruct Hlast as [r' [E Hr']].
  injection E as <- <-. split; [reflexivity | assumption].
Qed.

Lemma remove_duplicates_characterised :
  exists out,
    Curator.remove_duplicates data = Ok out /\
    map row_email out = first_seen option_cell_eq_dec (map row_email data) /\
    NoDup (map row_email out) /\
    (forall r, In r out -> last_row_with (row_email r) data = Some r).
Proof using has_email.
  set (d := dict_of cell_eq_dec (keyed data) []).
  assert (Hemails : map row_email (dict_values d)
                    = first_seen option_cell_eq_dec (map row_email data)).
  { assert (E1 : map row_email data = map Some (map email_key data)).
    { rewrite map_map. apply map_ext_in. intros r Hr.
      apply row_email_key. rewrite Forall_forall in has_email. auto. }
    rewrite E1, first_seen_email_keys.
    assert (E2 : map email_key data = map fst (keyed data)).
    { unfold keyed. rewrite map_map. reflexivity. }
    rewrite E2, <- dict_keys_dict_of_empty. fold d.
    unfold dict_values, dict_keys. rewrite !map_map.
    apply map_ext_in. intros [k r] Hin. simpl.
    destruct (remove_duplicates_entries _ _ Hin) as [_ [-> Hr]].
    apply row_email_key. rewrite Forall_forall in has_email. auto. }
  exists (dict_values d). split; [|split; [|split]].
  - unfold Curator.remove_duplicates.
    rewrite index_by_email_dict_of by exact has_email. reflexivity.
  - exact Hemails.
  - rewrite Hemails. apply NoDup_first_seen.
  - intros r Hr. unfold dict_values in Hr. apply in_map_iff in Hr.
    destruct Hr as [[k r'] [E Hin]]. simpl in E. subst r'.
    destruct (remove_duplicates_entries _ _ Hin) as [Hlast [-> Hdata]].
    rewrite Forall_forall in has_email.
    rewrite (row_email_key r (has_email _ Hdata)).
    rewrite last_row_with_keyed by (apply Forall_forall; exact has_email).
    exact Hlast.
Qed.

(** C1. When every row has an Email, [remove_duplicates] returns one row
    per distinct Email, placed where that Email is first seen in the input
    and holding the fields of the last input row with that Email. *)
Theorem remove_duplicates_last_wins_first_seen :
  exists out,
    Curator.remove_duplicates data = Ok out /\
    map row_email out = first_seen option_cell_eq_dec (map row_email data) /\
    NoDup (map row_email out) /\
    (forall r, In r out -> last_row_with (row_email r) data = Some r).
Proof using has_email.
  exact remove_duplicates_characterised.
Qed.
End RemoveDuplicates.

(** ** Strings *)

Lemma str_split_nonempty (sep : ascii) (m : option nat) (s : string) :
  str_split sep m s <> [].
Proof.
  revert m. induction s as [|c s IH]; intros m; simpl.
  - discriminate.
  - specialize (IH m).
    destruct (str_split sep m s) eqn:E; [congruence|].
    destruct (Ascii.eqb c sep); [|discriminate].
    destruct m as [[|n]|]; discriminate.
Qed.

Lemma str_split_no_sep (sep : ascii) (m : option nat) (s : string) :
  has_char sep s = false -> str_split sep m s = [s].
Proof.
  induction s as [|c s IH]; simpl; intros H.
  - reflexivity.
  - apply orb_false_iff in H. destruct H as [Hc Hs].
    rewrite Hc, (IH Hs). reflexivity.
Qed.

Lemma str_split_zero (sep : ascii) (s : string) :
  str_split sep (Some 0) s = [s].
Proof.
  induction s as [|c s IH]; simpl.
  - reflexivity.
  - rewrite IH. destruct (Ascii.eqb c sep); reflexivity.
Qed.

Lemma str_split_at_first (sep : ascii) (n : nat) (a b : string) :
  has_char sep a = false ->
  str_split sep (Some (S n)) (a ++ String sep b) = a :: str_split sep (Some n) b.
Proof.
  induction a as [|c a IH]; simpl; intros H.
  - rewrite Ascii.eqb_refl. reflexivity.
  - apply orb_false_iff in H. destruct H as [Hc Ha].
    rewrite Hc, (IH Ha). reflexivity.
Qed.

Lemma str_split_unlimited_app (sep : ascii) (a b : string) :
  str_split sep None (a ++ String sep b) =
  (str_split sep None a ++ str_split sep None b)%list.
Proof.
  induction a as [|c a IH]; simpl.
  - rewrite Ascii.eqb_refl. reflexivity.
  - rewrite IH. destruct (Ascii.eqb c sep); [reflexivity|].
    pose proof (str_split_nonempty sep None a) as Hne.
    destruct (str_split sep None a); [congruence | reflexivity].
Qed.

Lemma index_last_app (l : list string) (x : string) :
  index_last (l ++ [x]) = Ok x.
Proof.
  unfold index_last. rewrite rev_app_distr. reflexivity.
Qed.

(** The last piece of an unlimited split: the text after the last separator. *)
Lemma str_split_last_segment (sep : ascii) (a b : string) :
  has_char sep b = false ->
  index_last (str_split sep None (a ++ String sep b)) = Ok b.
Proof.
  intros H. rewrite str_split_unlimited_app, (str_split_no_sep sep None b H).
  apply index_last_app.
Qed.

(** ** Rows *)

Lemma getitem_Ok (key : string) (r : row) (v : cell) :
  getitem key r = Ok v <-> dict_get string_dec key r = Some v.
Proof.
  unfold getitem. destruct (dict_get string_dec key r); split; congruence.
Qed.

Lemma getitem_setitem_same (key : string) (v : cell) (r : row) :
  getitem key (setitem key v r) = Ok v.
Proof.
  unfold getitem, setitem. rewrite dict_get_set_same. reflexivity.
Qed.

Lemma getitem_setitem_other (key key' : string) (v : cell) (r : row) :
  key <> key' -> getitem key' (setitem key v r) = getitem key' r.
Proof.
  intros H. unfold getitem, setitem. rewrite dict_get_set_other by exact H.
  reflexivity.
Qed.

(** ** split_names *)

Lemma split_names_transform_parts (r : row) (nome : string) :
  getitem "Nome" r = Ok (Str nome) ->
  exists first surname,
    Curator.split_names_transform r =
      Ok (setitem "Surname" (Str surname) (setitem "FirstName" (Str first) r)) /\
    (has_char " " nome = false -> first = nome /\ surname = "") /\
    (forall a b, nome = a ++ " " ++ b -> has_char " " a = false ->
                 first = a /\ surname = b).
Proof.
  clear open_error.
  intros Hnome. unfold Curator.split_names_transform. rewrite Hnome. simpl bind.
  destruct (has_char " " nome) eqn:Hsp.
  - pose proof (str_split_nonempty " " (Some 1) nome) as Hne.
    destruct (str_split " " (Some 1) nome) as [|p0 ps] eqn:E; [congruence|].
    exists p0, (if (1 <? List.length (p0 :: ps))%nat then nth 1 (p0 :: ps) "" else "").
    split; [reflexivity|]. split; [discriminate|].
    intros a b -> Ha. simpl append in E.
    rewrite (str_split_at_first " " 0 a b Ha), str_split_zero in E.
    injection E as <- <-. split; reflexivity.
  - rewrite (str_split_no_sep " " (Some 1) nome Hsp).
    exists nome, "". split; [reflexivity|]. split; [auto|].
    intros a b -> Ha. exfalso.
    clear Hnome. induction a as [|c a IH]; simpl in *.
    + discriminate.
    + apply orb_false_iff in Hsp. apply orb_false_iff in Ha.
      apply IH; tauto.
Qed.

(** C5. A row whose Nome is a string gets FirstName and Surname from a
    split at the first space: the text before it and everything after it;
    without a space, FirstName is the whole Nome and Surname is empty. *)
Theorem split_names_first_space_only (r : row) (nome : string) :
  getitem "Nome" r = Ok (Str nome) ->
  exists r' first surname,
    Curator.split_names_transform r = Ok r' /\
    getitem "FirstName" r' = Ok (Str first) /\
    getitem "Surname" r' = Ok (Str surname) /\
    (has_char " " nome = false -> first = nome /\ surname = "") /\
    (forall a b, nome = a ++ " " ++ b -> has_char " " a = false ->
                 first = a /\ surname = b).
Proof.
  intros Hnome.
  destruct (split_names_transform_parts r nome Hnome) as [f [sn [Ht [Hno Hsp]]]].
  exists (setitem "Surname" (Str sn) (setitem "FirstName" (Str f) r)), f, sn.
  split; [exact Ht|]. split; [|split; [|split; assumption]].
  - rewrite getitem_setitem_other by discriminate. apply getitem_setitem_same.
  - apply getitem_setitem_same.
Qed.

(** ** find_country_names *)

Lemma has_char_app_sep (sep : ascii) (a b : string) :
  has_char sep (a ++ String sep b) = true.
Proof.
  induction a as [|c a IH]; simpl.
  - rewrite Ascii.eqb_refl. reflexivity.
  - rewrite IH. apply orb_true_r.
Qed.

Lemma find_country_names_transform_tld (r : row) (email : string) :
  getitem "Email" r = Ok (Str email) ->
  exists tld,
    Curator.find_country_names_transform r =
      Ok (setitem "Country"
            (Str (if (String.length tld =? 2)%nat then tld else "br")) r) /\
    (has_char "." email = false -> tld = email) /\
    (forall a b, email = a ++ "." ++ b -> has_char "." b = false -> tld = b).
Proof.
  intros Hemail. unfold Curator.find_country_names_transform.
  rewrite Hemail. simpl bind.
  destruct (has_char "." email) eqn:Hdot.
  - pose proof (str_split_nonempty "." None email) as Hne.
    unfold index_last.
    destruct (rev (str_split "." None email)) as [|t ts] eqn:E.
    + exfalso. apply Hne. rewrite <- (rev_involutive (str_split "." None email)), E.
      reflexivity.
    + exists t. split; [reflexivity|]. split; [discriminate|].
      intros a b -> Hb. simpl append in E.
      pose proof (str_split_last_segment "." a b Hb) as Hl.
      unfold index_last in Hl. rewrite E in Hl. congruence.
  - exists email. rewrite (str_split_no_sep "." None email Hdot).
    split; [reflexivity|]. split; [reflexivity|].
    intros a b -> _. simpl append in Hdot. rewrite has_char_app_sep in Hdot.
    discriminate.
Qed.

(** C2, amended.  A row whose Email is a string gets as Country the text
    after the last dot of the whole Email string (the whole string when it
    has no dot) when that text has exactly 2 characters, unchanged in case,
    and "br" otherwise. *)
Theorem find_country_names_last_segment (r : row) (email : string) :
  getitem "Email" r = Ok (Str email) ->
  exists r' tld,
    Curator.find_country_names_transform r = Ok r' /\
    getitem "Country" r' =
      Ok (Str (if (String.length tld =? 2)%nat then tld else "br")) /\
    (has_char "." email = false -> tld = email) /\
    (forall a b, email = a ++ "." ++ b -> has_char "." b = false -> tld = b).
Proof.
  intros Hemail.
  destruct (find_country_names_transform_tld r email Hemail) as [tld [Ht [H0 H1]]].
  eexists. exists tld. split; [exact Ht|].
  split; [apply getitem_setitem_same|]. split; assumption.
Qed.

(** C2 as worded fails on "j.d@uk": the domain "uk" has 2 characters, but
    the code looks at "d@uk", the text after the last dot of the string,
    and falls back to "br". *)
Lemma find_country_names_domain_counterexample :
  Curator.find_country_names_transform
    [("Nome", Str "J D"); ("Email", Str "j.d@uk")] =
    Ok [("Nome", Str "J D"); ("Email", Str "j.d@uk"); ("Country", Str "br")] /\
  spec_country "j.d@uk" = "uk" /\
  ~ (forall r email, getitem "Email" r = Ok (Str email) ->
       exists r', Curator.find_country_names_transform r = Ok r' /\
                  getitem "Country" r' = Ok (Str (spec_country email))).
Proof.
  split; [reflexivity|]. split; [reflexivity|].
  intros H.
  destruct (H [("Nome", Str "J D"); ("Email", Str "j.d@uk")] "j.d@uk" eq_refl)
    as [r' [Ht Hc]].
  vm_compute in Ht. injection Ht as <-. vm_compute in Hc. discriminate.
Qed.

(** ** Lazy maps over a list *)

Lemma collect_cons {A : Type} (a : A) (it : stream A) :
  collect (SCons a it) = (l <- collect it ;; Ok (a :: l)).
Proof.
  unfold collect. simpl. destruct (ending it); reflexivity.
Qed.

Lemma collect_lazy_map_iter {A B : Type} (f : A -> result B) (l : list A)
      (out : list B) :
  collect (lazy_map f (iter l)) = Ok out <-> Forall2 (fun a b => f a = Ok b) l out.
Proof.
  revert out. induction l as [|a l IH]; intros out; simpl.
  - unfold collect. simpl. split; intros H.
    + injection H as <-. constructor.
    + inversion H. reflexivity.
  - destruct (f a) as [b|e] eqn:E.
    + rewrite collect_cons. split; intros H.
      * destruct (collect (lazy_map f (iter l))) as [out'|e] eqn:Ec;
          simpl in H; [|discriminate].
        injection H as <-. constructor; [exact E | apply IH; reflexivity].
      * inversion H as [|? b' ? out' Hb Hrest]; subst.
        apply IH in Hrest. rewrite Hrest. simpl. congruence.
    + split; intros H.
      * unfold collect in H. simpl in H. discriminate.
      * inversion H; subst. congruence.
Qed.

Lemma Forall2_total {A B : Type} (R : A -> B -> Prop) (l : list A) :
  Forall (fun a => exists b, R a b) l -> exists out, Forall2 R l out.
Proof.
  induction 1 as [|a l [b Hb] _ [out Hout]].
  - exists []. constructor.
  - exists (b :: out). constructor; assumption.
Qed.

Lemma Forall2_In_right {A B : Type} (R : A -> B -> Prop) (l : list A)
      (l' : list B) (b : B) :
  Forall2 R l l' -> In b l' -> exists a, In a l /\ R a b.
Proof.
  induction 1 as [|a b' l l' Hab _ IH]; simpl; intros Hin.
  - contradiction.
  - destruct Hin as [<-|Hin].
    + exists a. split; [left; reflexivity | exact Hab].
    + destruct (IH Hin) as [a' [Ha' Hr]]. exists a'. split; [right|]; assumption.
Qed.

Lemma lazy_map_compose {A B C : Type} (f : A -> result B) (g : B -> result C)
      (it : stream A) :
  lazy_map g (lazy_map f it) = lazy_map (fun a => b <- f a ;; g b) it.
Proof.
  induction it as [|a rest IH|e]; simpl.
  - reflexivity.
  - destruct (f a) as [b|e]; simpl; [|reflexivity].
    destruct (g b); [rewrite IH|]; reflexivity.
  - reflexivity.
Qed.

(** ** What the transformations leave alone *)

Lemma split_names_transform_frame (r r' : row) (k : string) :
  Curator.split_names_transform r = Ok r' ->
  k <> "FirstName" -> k <> "Surname" ->
  dict_get string_dec k r' = dict_get string_dec k r.
Proof.
  unfold Curator.split_names_transform. intros H Hf Hs.
  destruct (getitem "Nome" r) as [[nome|]|e]; simpl in H; try discriminate.
  destruct (index_first (str_split " " (Some 1) nome)); simpl in H;
    [|discriminate].
  injection H as <-. unfold setitem.
  rewrite !dict_get_set_other by congruence. reflexivity.
Qed.

Lemma find_country_names_transform_frame (r r' : row) (k : string) :
  Curator.find_country_names_transform r = Ok r' ->
  k <> "Country" ->
  dict_get string_dec k r' = dict_get string_dec k r.
Proof.
  unfold Curator.find_country_names_transform. intros H Hc.
  destruct (getitem "Email" r) as [[email|]|e]; simpl in H; try discriminate.
  destruct (index_last (str_split "." None email)); simpl in H; [|discriminate].
  injection H as <-. unfold setitem.
  rewrite dict_get_set_other by congruence. reflexivity.
Qed.

(** C10. Over rows whose Nome and Email are strings, [split_names] and
    [find_country_names] each return as many rows as they are given, in
    the same order; the first changes no binding but FirstName and Surname,
    the second none but Country. *)
Theorem transforms_change_only_their_fields (data : list row) :
  Forall (fun r => exists nome, getitem "Nome" r = Ok (Str nome)) data ->
  Forall (fun r => exists email, getitem "Email" r = Ok (Str email)) data ->
  (exists out,
     collect (Curator.split_names (iter data)) = Ok out /\
     List.length out = List.length data /\
     Forall2 (fun r r' => forall k, k <> "FirstName" -> k <> "Surname" ->
                dict_get string_dec k r' = dict_get string_dec k r) data out) /\
  (exists out,
     collect (Curator.find_country_names (iter data)) = Ok out /\
     List.length out = List.length data /\
     Forall2 (fun r r' => forall k, k <> "Country" ->
                dict_get string_dec k r' = dict_get string_dec k r) data out).
Proof.
  intros Hnome Hemail. split.
  - destruct (Forall2_total (fun r r' => Curator.split_names_transform r = Ok r') data)
      as [out Hout].
    { eapply Forall_impl; [|exact Hnome]. intros r [nome Hr].
      destruct (split_names_transform_parts r nome Hr) as [f [s [Ht _]]].
      eexists. exact Ht. }
    exists out. split; [apply collect_lazy_map_iter; exact Hout|].
    split; [symmetry; eapply Forall2_length; exact Hout|].
    eapply Forall2_impl; [|exact Hout].
    intros r r' Ht k. apply split_names_transform_frame. exact Ht.
  - destruct (Forall2_total
                (fun r r' => Curator.find_country_names_transform r = Ok r') data)
      as [out Hout].
    { eapply Forall_impl; [|exact Hemail]. intros r [email Hr].
      destruct (find_country_names_transform_tld r email Hr) as [t [Ht _]].
      eexists. exact Ht. }
    exists out. split; [apply collect_lazy_map_iter; exact Hout|].
    split; [symmetry; eapply Forall2_length; exact Hout|].
    eapply Forall2_impl; [|exact Hout].
    intros r r' Ht k. apply find_country_names_transform_frame. exact Ht.
Qed.

(** ** A second curation pass *)

Section FreshKeys.
Variables K V : Type.
Variable K_eq_dec : forall x y : K, {x = y} + {x <> y}.

Lemma dict_set_fresh (k : K) (v : V) (d : dict K V) :
  ~ In k (dict_keys d) -> dict_set K_eq_dec k v d = (d ++ [(k, v)])%list.
Proof.
  induction d as [|[k' v'] d IH]; simpl; intros H.
  - reflexivity.
  - destruct (K_eq_dec k k') as [E|N].
    + exfalso. apply H. left. congruence.
    + f_equal. apply IH. intros Hin. apply H. right. exact Hin.
Qed.

Lemma dict_of_fresh (kvs : list (K * V)) (d : dict K V) :
  NoDup (dict_keys d ++ map fst kvs) ->
  dict_of K_eq_dec kvs d = (d ++ kvs)%list.
Proof.
  revert d. induction kvs as [|[k v] kvs IH]; intros d Hnd.
  - simpl. rewrite app_nil_r. reflexivity.
  - unfold dict_of in *. simpl fold_left. simpl map in Hnd.
    rewrite dict_set_fresh.
    + rewrite IH.
      * rewrite <- app_assoc. reflexivity.
      * unfold dict_keys in *. rewrite map_app. simpl.
        rewrite <- app_assoc. exact Hnd.
    + apply NoDup_remove_2 in Hnd. intros Hin. apply Hnd.
      apply in_or_app. left. exact Hin.
Qed.
End FreshKeys.

Lemma index_by_email_has_email (l : list row) (d d' : dict cell row) :
  Curator.index_by_email l d = Ok d' ->
  Forall (fun r => row_email r <> None) l.
Proof.
  revert d. induction l as [|r l IH]; intros d H.
  - constructor.
  - simpl in H. unfold getitem in H. fold (row_email r) in H.
    destruct (row_email r) as [c|] eqn:E; simpl in H; [|discriminate].
    constructor; [congruence | eapply IH; exact H].
Qed.

Lemma remove_duplicates_has_email (l out : list row) :
  Curator.remove_duplicates l = Ok out ->
  Forall (fun r => row_email r <> None) l.
Proof.
  unfold Curator.remove_duplicates. intros H.
  destruct (Curator.index_by_email l []) as [d|e] eqn:E; [|discriminate].
  eapply index_by_email_has_email. exact E.
Qed.

(** Rows whose Emails are present and pairwise distinct pass through
    [remove_duplicates] unchanged. *)
Lemma remove_duplicates_unique (l : list row) :
  Forall (fun r => row_email r <> None) l ->
  NoDup (map row_email l) ->
  Curator.remove_duplicates l = Ok l.
Proof.
  intros Hl Hnd. unfold Curator.remove_duplicates.
  rewrite index_by_email_dict_of by exact Hl. simpl.
  rewrite dict_of_fresh.
  - simpl. unfold dict_values, keyed. rewrite map_map. simpl. rewrite map_id.
    reflexivity.
  - assert (E : map row_email l = map Some (map email_key l)).
    { rewrite map_map. apply map_ext_in. intros r Hr.
      apply row_email_key. rewrite Forall_forall in Hl. auto. }
    rewrite E in Hnd. apply NoDup_map_inv in Hnd.
    simpl. unfold keyed. rewrite map_map. exact Hnd.
Qed.

Lemma split_names_transform_same_nome (r r1 r2 : row) :
  Curator.split_names_transform r = Ok r1 ->
  getitem "Nome" r2 = getitem "Nome" r ->
  exists f s,
    r1 = setitem "Surname" (Str s) (setitem "FirstName" (Str f) r) /\
    Curator.split_names_transform r2 =
      Ok (setitem "Surname" (Str s) (setitem "FirstName" (Str f) r2)).
Proof.
  unfold Curator.split_names_transform. intros H E. rewrite E.
  destruct (getitem "Nome" r) as [[nome|]|e]; simpl in *; try discriminate.
  destruct (index_first (str_split " " (Some 1) nome)) as [f|e]; simpl in *;
    [|discriminate].
  injection H as <-. eexists. eexists. split; reflexivity.
Qed.

Lemma find_country_names_transform_same_email (r r1 r2 : row) :
  Curator.find_country_names_transform r = Ok r1 ->
  getitem "Email" r2 = getitem "Email" r ->
  exists c,
    r1 = setitem "Country" (Str c) r /\
    Curator.find_country_names_transform r2 = Ok (setitem "Country" (Str c) r2).
Proof.
  unfold Curator.find_country_names_transform. intros H E. rewrite E.
  destruct (getitem "Email" r) as [[email|]|e]; simpl in *; try discriminate.
  destruct (index_last (str_split "." None email)) as [t|e]; simpl in *;
    [|discriminate].
  injection H as <-. eexists. split; reflexivity.
Qed.

Lemma setitem_same (key : string) (v : cell) (r : row) :
  getitem key r = Ok v -> setitem key v r = r.
Proof.
  intros H. apply dict_set_get_id. apply getitem_Ok. exact H.
Qed.

Lemma curate_row_email (r r' : row) :
  curate_row r = Ok r' -> row_email r' = row_email r.
Proof.
  unfold curate_row. intros H.
  destruct (Curator.split_names_transform r) as [r1|e] eqn:E1; simpl in H;
    [|discriminate].
  unfold row_email.
  rewrite (find_country_names_transform_frame r1 r' "Email" H) by discriminate.
  apply (split_names_transform_frame r r1 "Email" E1); discriminate.
Qed.

Lemma curate_row_has_email (r r' : row) :
  curate_row r = Ok r' -> row_email r' <> None.
Proof.
  intros H. rewrite (curate_row_email r r' H).
  unfold curate_row in H.
  destruct (Curator.split_names_transform r) as [r1|e] eqn:E1; simpl in H;
    [|discriminate].
  unfold row_email.
  rewrite <- (split_names_transform_frame r r1 "Email" E1) by discriminate.
  unfold Curator.find_country_names_transform, getitem in H.
  destruct (dict_get string_dec "Email" r1); [discriminate | discriminate H].
Qed.

(** A curated row is a fixed point of the two row transformations. *)
Lemma curate_row_idempotent (r r' : row) :
  curate_row r = Ok r' -> curate_row r' = Ok r'.
Proof.
  unfold curate_row. intros H.
  destruct (Curator.split_names_transform r) as [r1|e] eqn:E1; simpl in H;
    [|discriminate].
  assert (Hnome : getitem "Nome" r' = getitem "Nome" r).
  { unfold getitem.
    rewrite (find_country_names_transform_frame r1 r' "Nome" H) by discriminate.
    rewrite (split_names_transform_frame r r1 "Nome" E1) by discriminate.
    reflexivity. }
  destruct (split_names_transform_same_nome r r1 r' E1 Hnome) as [f [s [Er1 E2]]].
  assert (Hemail : getitem "Email" r' = getitem "Email" r1).
  { unfold getitem.
    rewrite (find_country_names_transform_frame r1 r' "Email" H) by discriminate.
    reflexivity. }
  destruct (find_country_names_transform_same_email r1 r' r' H Hemail)
    as [c [Er' E3]].
  assert (Hf : getitem "FirstName" r' = Ok (Str f)).
  { rewrite Er', Er1. rewrite !getitem_setitem_other by discriminate.
    apply getitem_setitem_same. }
  assert (Hs : getitem "Surname" r' = Ok (Str s)).
  { rewrite Er', Er1. rewrite getitem_setitem_other by discriminate.
    apply getitem_setitem_same. }
  assert (Hc : getitem "Country" r' = Ok (Str c)).
  { rewrite Er'. apply getitem_setitem_same. }
  rewrite E2. rewrite (setitem_same "FirstName" (Str f) r' Hf).
  rewrite (setitem_same "Surname" (Str s) r' Hs). simpl.
  rewrite E3. rewrite (setitem_same "Country" (Str c) r' Hc). reflexivity.
Qed.

Lemma curate_rows (data out : list row) :
  Curator.curate data = Ok out <->
  exists tmp0, Curator.remove_duplicates data = Ok tmp0 /\
               Forall2 (fun r r' => curate_row r = Ok r') tmp0 out.
Proof.
  unfold Curator.curate, Curator.find_country_names, Curator.split_names.
  destruct (Curator.remove_duplicates data) as [tmp0|e]; simpl.
  - rewrite lazy_map_compose. fold curate_row.
    rewrite (collect_lazy_map_iter (fun a => curate_row a)). split.
    + intros H. exists tmp0. split; [reflexivity | exact H].
    + intros [t [E H]]. injection E as ->. exact H.
  - split; [discriminate | intros [t [E _]]; discriminate].
Qed.

(** C4. The output of a curation pass is left as it is by a second pass of
    [remove_duplicates], [split_names] and [find_country_names]. *)
Theorem curate_idempotent (data out : list row) :
  Curator.curate data = Ok out -> Curator.curate out = Ok out.
Proof.
  intros H. apply curate_rows in H. destruct H as [tmp0 [Hd Hrows]].
  apply curate_rows. exists out. split.
  - apply remove_duplicates_unique.
    + apply Forall_forall. intros r' Hin.
      destruct (Forall2_In_right _ _ _ _ Hrows Hin) as [r [_ Hr]].
      eapply curate_row_has_email. exact Hr.
    + replace (map row_email out) with (map row_email tmp0).
      * destruct (remove_duplicates_characterised data
                    (remove_duplicates_has_email data tmp0 Hd))
          as [out' [E [_ [Hnd _]]]].
        rewrite Hd in E. injection E as <-. exact Hnd.
      * clear Hd. induction Hrows as [|r r' l l' Hr _ IH]; simpl.
        -- reflexivity.
        -- rewrite IH, (curate_row_email r r' Hr). reflexivity.
  - clear Hd. induction Hrows as [|r r' l l' Hr _ IH].
    + constructor.
    + constructor; [eapply curate_row_idempotent; exact Hr | exact IH].
Qed.

(** ** Writing the curated rows *)

Lemma dict_keys_setitem_old (key : string) (v : cell) (r : row) :
  incl (dict_keys r) (dict_keys (setitem key v r)).
Proof.
  unfold setitem. rewrite dict_keys_set.
  destruct (mem string_dec key (dict_keys r)).
  - apply incl_refl.
  - apply incl_appl, incl_refl.
Qed.

Lemma dict_keys_setitem_new (key : string) (v : cell) (r : row) :
  incl (dict_keys (setitem key v r)) (key :: dict_keys r).
Proof.
  unfold setitem. rewrite dict_keys_set.
  destruct (mem string_dec key (dict_keys r)).
  - apply incl_tl, incl_refl.
  - intros x Hx. apply in_app_or in Hx. destruct Hx as [Hx|[<-|[]]].
    + right. exact Hx.
    + left. reflexivity.
Qed.

Lemma curate_row_total (r : row) :
  curator_row r -> exists r', curate_row r = Ok r'.
Proof.
  intros [[nome Hn] [email He]]. unfold curate_row.
  destruct (split_names_transform_parts r nome Hn) as [f [s [Ht _]]].
  rewrite Ht. simpl.
  destruct (find_country_names_transform_tld
              (setitem "Surname" (Str s) (setitem "FirstName" (Str f) r)) email)
    as [tld [Hc _]].
  - rewrite !getitem_setitem_other by discriminate. exact He.
  - eexists. exact Hc.
Qed.

Lemma curate_row_shape (r r' : row) :
  curate_row r = Ok r' ->
  exists f s c,
    r' = setitem "Country" (Str c)
           (setitem "Surname" (Str s) (setitem "FirstName" (Str f) r)).
Proof.
  unfold curate_row. intros H.
  destruct (Curator.split_names_transform r) as [r1|e] eqn:E1; simpl in H;
    [|discriminate].
  destruct (split_names_transform_same_nome r r1 r E1 eq_refl) as [f [s [-> _]]].
  destruct (find_country_names_transform_same_email _ r' _ H eq_refl)
    as [c [-> _]].
  exists f, s, c. reflexivity.
Qed.

Lemma curate_row_keys (r r' : row) :
  curate_row r = Ok r' ->
  incl (dict_keys r) (dict_keys r') /\
  incl (dict_keys r') ("Country" :: "Surname" :: "FirstName" :: dict_keys r).
Proof.
  intros H. destruct (curate_row_shape r r' H) as [f [s [c ->]]]. split.
  - eapply incl_tran; [apply dict_keys_setitem_old|].
    eapply incl_tran; [apply dict_keys_setitem_old|].
    apply dict_keys_setitem_old.
  - eapply incl_tran; [apply dict_keys_setitem_new|].
    apply incl_cons; [left; reflexivity|]. apply incl_tl.
    eapply incl_tran; [apply dict_keys_setitem_new|].
    apply incl_cons; [left; reflexivity|]. apply incl_tl.
    apply dict_keys_setitem_new.
Qed.

Lemma dict_to_list_ok (r : row) :
  incl (dict_keys r) Curator.fieldnames ->
  Curator.dict_to_list r = Ok (record_of r).
Proof.
  intros Hincl. unfold Curator.dict_to_list.
  replace (filter (fun k => negb (mem string_dec k Curator.fieldnames))
                  (dict_keys r)) with (@nil string).
  - reflexivity.
  - symmetry. induction (dict_keys r) as [|k ks IH]; simpl.
    + reflexivity.
    + replace (mem string_dec k Curator.fieldnames) with true.
      * simpl. apply IH. intros x Hx. apply Hincl. right. exact Hx.
      * symmetry. apply mem_true_iff. apply Hincl. left. reflexivity.
Qed.

Lemma dict_to_list_wrong (r : row) (k : string) :
  In k (dict_keys r) -> ~ In k Curator.fieldnames ->
  exists wrong, Curator.dict_to_list r = Raise (ValueError wrong) /\ In k wrong.
Proof.
  intros Hin Hnot. unfold Curator.dict_to_list.
  assert (Hk : In k (filter (fun k => negb (mem string_dec k Curator.fieldnames))
                            (dict_keys r))).
  { apply filter_In. split; [exact Hin|].
    apply negb_true_iff. apply mem_false_iff. exact Hnot. }
  destruct (filter (fun k => negb (mem string_dec k Curator.fieldnames))
                   (dict_keys r)) as [|w ws].
  - contradiction.
  - exists (w :: ws). split; [reflexivity | exact Hk].
Qed.

Lemma lazy_map_iter_Forall2 {A B : Type} (f : A -> result B) (l : list A)
      (out : list B) :
  Forall2 (fun a b => f a = Ok b) l out -> lazy_map f (iter l) = iter out.
Proof.
  induction 1 as [|a b l out Hab _ IH]; simpl.
  - reflexivity.
  - rewrite Hab, IH. reflexivity.
Qed.

Lemma writerows_iter (rows : list row) (written : list (list string)) :
  Forall (fun r => incl (dict_keys r) Curator.fieldnames) rows ->
  Curator.writerows (iter rows) written =
    ((written ++ map record_of rows)%list, Ok tt).
Proof.
  revert written. induction rows as [|r rows IH]; intros written H; simpl.
  - rewrite app_nil_r. reflexivity.
  - inversion H as [|? ? Hr Hrows]; subst.
    rewrite (dict_to_list_ok r Hr), IH by exact Hrows.
    rewrite <- app_assoc. reflexivity.
Qed.

(** The header is the first record of whatever the write step leaves. *)
Lemma writerows_keeps (data : stream row) (written : list (list string)) :
  exists more, fst (Curator.writerows data written) = (written ++ more)%list.
Proof.
  revert written. induction data as [|r rest IH|e]; intros written; simpl.
  - exists []. rewrite app_nil_r. reflexivity.
  - destruct (Curator.dict_to_list r) as [record|e].
    + destruct (IH (written ++ [record])%list) as [more Hmore].
      exists (record :: more). rewrite Hmore, <- app_assoc. reflexivity.
    + exists []. rewrite app_nil_r. reflexivity.
  - exists []. rewrite app_nil_r. reflexivity.
Qed.

(** What [print_output_file] does once the destination is there. *)
Lemma ascii_lower_same_letter (p c : ascii) :
  ((65 <=? nat_of_ascii p)%nat && (nat_of_ascii p <=? 90)%nat)%bool = false ->
  Ascii.eqb (ascii_lower c) p = same_letter p c.
Proof.
  intros Hp. unfold ascii_lower, same_letter.
  destruct ((65 <=? nat_of_ascii c)%nat && (nat_of_ascii c <=? 90)%nat)%bool
    eqn:Hc; simpl.
  - assert (Hcp : Ascii.eqb c p = false).
    { apply Ascii.eqb_neq. intros ->. congruence. }
    rewrite Hcp. simpl.
    apply andb_true_iff in Hc. destruct Hc as [_ Hc]. apply Nat.leb_le in Hc.
    destruct (nat_of_ascii c + 32 =? nat_of_ascii p)%nat eqn:E.
    + apply Nat.eqb_eq in E. rewrite E, ascii_nat_embedding.
      apply Ascii.eqb_refl.
    + apply Ascii.eqb_neq. intros H. apply Nat.eqb_neq in E. apply E.
      rewrite <- H. rewrite nat_ascii_embedding; lia.
  - rewrite orb_false_r. reflexivity.
Qed.

Lemma str_lower_spells (word s : string) :
  forallb (fun p => negb ((65 <=? nat_of_ascii p)%nat
                          && (nat_of_ascii p <=? 90)%nat)%bool)
          (list_ascii_of_string word) = true ->
  String.eqb (str_lower s) word = spells word s.
Proof.
  revert s. induction word as [|p word IH]; intros s Hword.
  - destruct s; reflexivity.
  - destruct s as [|c s]; [reflexivity|].
    simpl in Hword. apply andb_true_iff in Hword. destruct Hword as [Hp Hword].
    apply negb_true_iff in Hp.
    simpl str_lower. simpl spells. simpl String.eqb.
    rewrite (ascii_lower_same_letter p c Hp), (IH s Hword).
    destruct (same_letter p c); reflexivity.
Qed.

Lemma is_stdout_spells (destination : string) :
  Curator.is_stdout destination =
  spells "-" destination || spells "stdout" destination.
Proof.
  unfold Curator.is_stdout. cbv zeta.
  rewrite (str_lower_spells "-"), (str_lower_spells "stdout") by reflexivity.
  reflexivity.
Qed.

Lemma print_output_file_opens (destination : string) (data : stream row) :
  opens open_error destination ->
  Curator.print_output_file open_error destination data =
    (Some (Curator.mkOutput
             (if names_stdout destination
              then Curator.Stdout else Curator.File destination)
             (fst (Curator.writerows data [Curator.fieldnames]))
             (negb (names_stdout destination))),
     snd (Curator.writerows data [Curator.fieldnames])).
Proof.
  unfold opens, names_stdout, Curator.print_output_file, Curator.write_and_close.
  rewrite <- !is_stdout_spells.
  intros H. destruct (Curator.is_stdout destination).
  - destruct (Curator.writerows data [Curator.fieldnames]). reflexivity.
  - destruct H as [H|H]; [discriminate|]. rewrite H.
    destruct (Curator.writerows data [Curator.fieldnames]). reflexivity.
Qed.

Lemma print_output_file_header (destination : string) (data : stream row)
      (o : Curator.output) :
  fst (Curator.print_output_file open_error destination data) = Some o ->
  exists more, Curator.out_records o = Curator.fieldnames :: more.
Proof.
  unfold Curator.print_output_file, Curator.write_and_close.
  destruct (writerows_keeps data [Curator.fieldnames]) as [more Hmore].
  destruct (Curator.writerows data [Curator.fieldnames]) as [records r].
  simpl in Hmore. subst records.
  destruct (Curator.is_stdout destination).
  - intros H. injection H as <-. exists more. reflexivity.
  - destruct (open_error destination); [discriminate|].
    intros H. injection H as <-. exists more. reflexivity.
Qed.

Lemma remove_duplicates_In (data out : list row) (r : row) :
  Curator.remove_duplicates data = Ok out -> In r out -> In r data.
Proof.
  intros Hd Hin.
  destruct (remove_duplicates_characterised data
              (remove_duplicates_has_email data out Hd))
    as [out' [E [_ [_ Hlast]]]].
  rewrite Hd in E. injection E as <-.
  specialize (Hlast r Hin). unfold last_row_with in Hlast.
  apply last_assoc_In in Hlast. apply in_map_iff in Hlast.
  destruct Hlast as [r' [E Hr']]. injection E as _ <-. exact Hr'.
Qed.

Lemma curator_rows_total (data : list row) :
  Forall curator_row data ->
  exists tmp0 out,
    Curator.remove_duplicates data = Ok tmp0 /\
    Forall2 (fun r r' => curate_row r = Ok r') tmp0 out.
Proof.
  intros Hvalid.
  assert (Hemail : Forall (fun r => row_email r <> None) data).
  { eapply Forall_impl; [|exact Hvalid]. intros r [_ [email He]].
    apply getitem_Ok in He. unfold row_email. congruence. }
  destruct (remove_duplicates_characterised data Hemail) as [tmp0 [Hd _]].
  destruct (Forall2_total (fun r r' => curate_row r = Ok r') tmp0) as [out Hout].
  { apply Forall_forall. intros r Hr. apply curate_row_total.
    rewrite Forall_forall in Hvalid. apply Hvalid.
    eapply remove_duplicates_In; eassumption. }
  exists tmp0, out. split; assumption.
Qed.

Lemma run_pipeline_stream (data tmp0 out : list row) (name : string) :
  Curator.remove_duplicates data = Ok tmp0 ->
  Forall2 (fun r r' => curate_row r = Ok r') tmp0 out ->
  Curator.run_pipeline open_error data name =
    Curator.print_output_file open_error name (iter out).
Proof.
  intros Hd Hout. unfold Curator.run_pipeline. rewrite Hd. cbv beta iota zeta.
  unfold Curator.find_country_names, Curator.split_names.
  rewrite lazy_map_compose. fold curate_row.
  rewrite (lazy_map_iter_Forall2 curate_row tmp0 out Hout).
  reflexivity.
Qed.

(** C3, amended.  When the rows read have string Nome and Email and no
    column outside Nome, FirstName, Surname, Email, Country, and the
    destination is the standard output or a file that opens, the write step
    succeeds: the output is the header Nome, FirstName, Surname, Email,
    Country followed by those five fields of each curated row, in order. *)
Theorem run_pipeline_writes_five_columns (data : list row) (name : string) :
  Forall curator_row data ->
  Forall (fun r => incl (dict_keys r) Curator.fieldnames) data ->
  opens open_error name ->
  exists rows o,
    Curator.curate data = Ok rows /\
    Curator.run_pipeline open_error data name = (Some o, Ok tt) /\
    destination_of name o /\
    Curator.out_records o =
      ["Nome"; "FirstName"; "Surname"; "Email"; "Country"] :: map record_of rows.
Proof.
  intros Hvalid Hkeys Hopen.
  destruct (curator_rows_total data Hvalid) as [tmp0 [out [Hd Hout]]].
  assert (Hout_keys : Forall (fun r => incl (dict_keys r) Curator.fieldnames) out).
  { apply Forall_forall. intros r' Hin.
    destruct (Forall2_In_right _ _ _ _ Hout Hin) as [r [Hr Hrr']].
    destruct (curate_row_keys r r' Hrr') as [_ Hnew].
    eapply incl_tran; [exact Hnew|].
    assert (Hrk : incl (dict_keys r) Curator.fieldnames).
    { rewrite Forall_forall in Hkeys. apply Hkeys.
      eapply remove_duplicates_In; eassumption. }
    repeat (apply incl_cons; [simpl; tauto|]). exact Hrk. }
  exists out. eexists. split; [|split; [|split]].
  - apply curate_rows. exists tmp0. split; assumption.
  - rewrite (run_pipeline_stream data tmp0 out name Hd Hout).
    rewrite (print_output_file_opens name (iter out) Hopen).
    rewrite (writerows_iter out [Curator.fieldnames] Hout_keys). reflexivity.
  - split; reflexivity.
  - reflexivity.
Qed.

(** C3 as worded fails on a row with a Phone column: the header is
    written, then the writer raises [ValueError] instead of dropping Phone. *)
Lemma extra_column_counterexample :
  Curator.run_pipeline always_opens
    [[("Nome", Str "Ana Lima"); ("Email", Str "ana@x.br"); ("Phone", Str "1")]]
    "out.csv" =
  (Some (Curator.mkOutput (Curator.File "out.csv")
           [["Nome"; "FirstName"; "Surname"; "Email"; "Country"]] true),
   Raise (ValueError ["Phone"])).
Proof. reflexivity. Qed.

(** Whenever every row read carries a column outside the five, the write
    step stops at the first row, with only the header written. *)
Lemma run_pipeline_extra_column_raises (data : list row) (name : string) :
  data <> [] ->
  Forall curator_row data ->
  Forall (fun r => exists k, In k (dict_keys r) /\ ~ In k Curator.fieldnames)
         data ->
  opens open_error name ->
  exists o wrong,
    Curator.run_pipeline open_error data name = (Some o, Raise (ValueError wrong)) /\
    wrong <> [] /\
    Curator.out_records o = [Curator.fieldnames].
Proof.
  intros Hne Hvalid Hextra Hopen.
  destruct (curator_rows_total data Hvalid) as [tmp0 [out [Hd Hout]]].
  assert (Hemail := remove_duplicates_has_email data tmp0 Hd).
  destruct (remove_duplicates_characterised data Hemail)
    as [tmp0' [E [Hfirst _]]].
  rewrite Hd in E. injection E as <-.
  destruct Hout as [|r r' tmp0 out Hr Hrest].
  - destruct data as [|d0 data]; [congruence | discriminate Hfirst].
  - assert (Hin : In r data).
    { eapply remove_duplicates_In; [exact Hd | left; reflexivity]. }
    rewrite Forall_forall in Hextra. destruct (Hextra r Hin) as [k [Hk Hnot]].
    destruct (curate_row_keys r r' Hr) as [Hold _].
    destruct (dict_to_list_wrong r' k (Hold k Hk) Hnot) as [wrong [Hw Hkw]].
    rewrite (run_pipeline_stream data (r :: tmp0) (r' :: out) name Hd
               (Forall2_cons _ _ Hr Hrest)).
    rewrite (print_output_file_opens name (iter (r' :: out)) Hopen).
    simpl. rewrite Hw.
    eexists. exists wrong. split; [reflexivity|].
    split; [|reflexivity]. intros ->. contradiction.
Qed.

(** ** str.replace *)

Lemma append_empty_r (s : string) : s ++ "" = s.
Proof.
  induction s as [|c s IH]; simpl; [|rewrite IH]; reflexivity.
Qed.

Lemma append_assoc (s1 s2 s3 : string) : (s1 ++ s2) ++ s3 = s1 ++ s2 ++ s3.
Proof.
  induction s1 as [|c s1 IH]; simpl; [|rewrite IH]; reflexivity.
Qed.










Section ReplaceToken.
Variable a : ascii.
Variable t : string.
Variable new : string.
Hypothesis first_char_once : has_char a t = false.

Local Notation "'old'" := (String a t).





End ReplaceToken.


(** ** create_email *)




(** ** filter_brazilians *)





(** ** send_batch *)

Lemma send_calls_app (t t' : list Mailer.event) :
  send_calls (t ++ t') = (send_calls t ++ send_calls t')%list.
Proof.
  induction t as [|e t IH]; simpl.
  - reflexivity.
  - destruct e; simpl; rewrite IH; reflexivity.
Qed.

Lemma report_all_iter (msgs : list Mailer.EmailMessage) :
  Mailer.report_all header_text (iter msgs) = (map (report_line header_text) msgs, Mailer.Returns).
Proof.
  induction msgs as [|m msgs IH]; simpl.
  - reflexivity.
  - rewrite IH. reflexivity.
Qed.

Lemma report_all_prints (messages : stream Mailer.EmailMessage) :
  forallb (fun e => negb (is_network e)) (fst (Mailer.report_all header_text messages)) = true.
Proof.
  induction messages as [|m rest IH|e]; simpl.
  - reflexivity.
  - destruct (Mailer.report_all header_text rest) as [t o]. simpl in *. exact IH.
  - reflexivity.
Qed.









(** C9. In dry-run mode [send_batch] touches no network, whatever the
    iterator does; given messages, it prints the banner and then, for each
    message, the text of its To header and its subject, and returns, so
    the process exits 0.  Where the To header reads as the address stored,
    each line shows that address. *)
Theorem send_batch_dry_run (server : Mailer.smtp_server) (host user : string)
        (password : option string) :
  (forall messages,
     forallb (fun e => negb (is_network e))
             (fst (Mailer.send_batch header_text server messages host user password true))
     = true) /\
  (forall msgs,
     Mailer.send_batch header_text server (iter msgs) host user password true =
       (dry_run_banner :: map (report_line header_text) msgs, Mailer.Returns)) /\
  (forall msgs,
     Mailer.exit_code
       (snd (Mailer.send_batch header_text server (iter msgs) host user password true)) = 0) /\
  (forall msgs,
     Forall (fun m => header_text (Mailer.To m) = verbatim_header (Mailer.To m))
            msgs ->
     Mailer.send_batch header_text server (iter msgs) host user password true =
       (dry_run_banner
          :: map (fun m => recipient_line (verbatim_header (Mailer.To m))
                                          (Mailer.Subject m)) msgs,
        Mailer.Returns)).
Proof.
  split; [|split; [|split]].
  - intros messages. unfold Mailer.send_batch.
    pose proof (report_all_prints messages) as H.
    destruct (Mailer.report_all header_text messages) as [t o]. simpl in *. exact H.
  - intros msgs. unfold Mailer.send_batch. rewrite report_all_iter. reflexivity.
  - intros msgs. unfold Mailer.send_batch. rewrite report_all_iter. reflexivity.
  - intros msgs H. unfold Mailer.send_batch. rewrite report_all_iter.
    f_equal. f_equal. apply map_ext_in. intros m Hm.
    unfold report_line. rewrite Forall_forall in H. rewrite (H m Hm).
    reflexivity.
Qed.
End Facts.

(** * The statements on concrete inputs *)

Lemma remove_duplicates_witness :
  exists out,
    Curator.remove_duplicates
      [[("Nome", Str "X"); ("Email", Str "a@x.br")];
       [("Nome", Str "Z"); ("Email", Str "b@x.br")];
       [("Nome", Str "Y"); ("Email", Str "a@x.br")]] = Ok out /\
    map row_email out =
      first_seen option_cell_eq_dec
        (map row_email
           [[("Nome", Str "X"); ("Email", Str "a@x.br")];
            [("Nome", Str "Z"); ("Email", Str "b@x.br")];
            [("Nome", Str "Y"); ("Email", Str "a@x.br")]]) /\
    NoDup (map row_email out) /\
    (forall r, In r out ->
       last_row_with (row_email r)
         [[("Nome", Str "X"); ("Email", Str "a@x.br")];
          [("Nome", Str "Z"); ("Email", Str "b@x.br")];
          [("Nome", Str "Y"); ("Email", Str "a@x.br")]] = Some r).
Proof.
  apply (remove_duplicates_last_wins_first_seen
           [[("Nome", Str "X"); ("Email", Str "a@x.br")];
            [("Nome", Str "Z"); ("Email", Str "b@x.br")];
            [("Nome", Str "Y"); ("Email", Str "a@x.br")]]).
  repeat constructor; vm_compute; discriminate.
Defined.

Lemma find_country_names_witness :
  exists r' tld,
    Curator.find_country_names_transform
      [("Nome", Str "X"); ("Email", Str "x@foo.uk")] = Ok r' /\
    getitem "Country" r' =
      Ok (Str (if (String.length tld =? 2)%nat then tld else "br")) /\
    (has_char "." "x@foo.uk" = false -> tld = "x@foo.uk") /\
    (forall a b, "x@foo.uk" = a ++ "." ++ b -> has_char "." b = false -> tld = b).
Proof.
  apply (find_country_names_last_segment
           [("Nome", Str "X"); ("Email", Str "x@foo.uk")] "x@foo.uk").
  reflexivity.
Defined.

Lemma run_pipeline_witness :
  exists rows o,
    Curator.curate
      [[("Nome", Str "Maria Silva Santos"); ("Email", Str "maria@x.uk")];
       [("Nome", Str "Ana"); ("Email", Str "ana@x.com")]] = Ok rows /\
    Curator.run_pipeline always_opens
      [[("Nome", Str "Maria Silva Santos"); ("Email", Str "maria@x.uk")];
       [("Nome", Str "Ana"); ("Email", Str "ana@x.com")]] "out.csv"
      = (Some o, Ok tt) /\
    destination_of "out.csv" o /\
    Curator.out_records o =
      ["Nome"; "FirstName"; "Surname"; "Email"; "Country"] :: map record_of rows.
Proof.
  apply (run_pipeline_writes_five_columns always_opens
           [[("Nome", Str "Maria Silva Santos"); ("Email", Str "maria@x.uk")];
            [("Nome", Str "Ana"); ("Email", Str "ana@x.com")]] "out.csv").
  - repeat constructor; eexists; reflexivity.
  - apply Forall_cons; [|apply Forall_cons; [|apply Forall_nil]];
      intros k Hk; simpl in *; tauto.
  - right. reflexivity.
Defined.

Lemma curate_witness :
  Curator.curate
    [[("Nome", Str "Y Z"); ("Email", Str "a@x.uk"); ("FirstName", Str "Y");
      ("Surname", Str "Z"); ("Country", Str "uk")]] =
  Ok [[("Nome", Str "Y Z"); ("Email", Str "a@x.uk"); ("FirstName", Str "Y");
       ("Surname", Str "Z"); ("Country", Str "uk")]].
Proof.
  apply (curate_idempotent
           [[("Nome", Str "X"); ("Email", Str "a@x.uk")];
            [("Nome", Str "Y Z"); ("Email", Str "a@x.uk")]]).
  reflexivity.
Defined.

Lemma split_names_witness :
  exists r' first surname,
    Curator.split_names_transform
      [("Nome", Str "Maria Silva Santos"); ("Email", Str "maria@x.br")] = Ok r' /\
    getitem "FirstName" r' = Ok (Str first) /\
    getitem "Surname" r' = Ok (Str surname) /\
    (has_char " " "Maria Silva Santos" = false ->
     first = "Maria Silva Santos" /\ surname = "") /\
    (forall a b, "Maria Silva Santos" = a ++ " " ++ b ->
                 has_char " " a = false -> first = a /\ surname = b).
Proof.
  apply (split_names_first_space_only
           [("Nome", Str "Maria Silva Santos"); ("Email", Str "maria@x.br")]
           "Maria Silva Santos").
  reflexivity.
Defined.




Lemma send_batch_dry_run_witness :
  Mailer.send_batch verbatim_header
    (Mailer.mkServer None None (fun _ _ => None) (fun _ _ => None) None)
    (iter [Mailer.mkEmail "Chamada de Trabalhos: SBLP 2026" Mailer.SENDER_ADDR
             (Str "ana@x.br") "Hello Ana!"])
    "smtp.dcc.ufmg.br" Mailer.SENDER_ADDR None true =
  ([dry_run_banner;
    recipient_line "ana@x.br" "Chamada de Trabalhos: SBLP 2026"],
   Mailer.Returns).
Proof.
  destruct (send_batch_dry_run verbatim_header
              (Mailer.mkServer None None (fun _ _ => None) (fun _ _ => None) None)
              "smtp.dcc.ufmg.br" Mailer.SENDER_ADDR None)
    as [_ [_ [_ H]]].
  apply (H [Mailer.mkEmail "Chamada de Trabalhos: SBLP 2026" Mailer.SENDER_ADDR
              (Str "ana@x.br") "Hello Ana!"]).
  repeat constructor.
Defined.

Lemma transforms_witness :
  (exists out,
     collect (Curator.split_names
                (iter [[("Nome", Str "Ana Lima"); ("Email", Str "ana@x.br");
                        ("Phone", Str "1")]])) = Ok out /\
     List.length out = 1 /\
     Forall2 (fun r r' => forall k, k <> "FirstName" -> k <> "Surname" ->
                dict_get string_dec k r' = dict_get string_dec k r)
             [[("Nome", Str "Ana Lima"); ("Email", Str "ana@x.br");
               ("Phone", Str "1")]] out) /\
  (exists out,
     collect (Curator.find_country_names
                (iter [[("Nome", Str "Ana Lima"); ("Email", Str "ana@x.br");
                        ("Phone", Str "1")]])) = Ok out /\
     List.length out = 1 /\
     Forall2 (fun r r' => forall k, k <> "Country" ->
                dict_get string_dec k r' = dict_get string_dec k r)
             [[("Nome", Str "Ana Lima"); ("Email", Str "ana@x.br");
               ("Phone", Str "1")]] out).
Proof.
  apply (transforms_change_only_their_fields
           [[("Nome", Str "Ana Lima"); ("Email", Str "ana@x.br");
             ("Phone", Str "1")]]).
  - repeat constructor. eexists. reflexivity.
  - repeat constructor. eexists. reflexivity.
Defined.

(** * Further properties of the curator *)

Section Further.
Variable open_error : string -> option string.
Variable header_text : cell -> string.

#[local] Set Default Proof Using "Type".

(** ** remove_duplicates: failure, containment, idempotence *)

Lemma index_by_email_missing (l : list row) (d : dict cell row) :
  Exists (fun r => row_email r = None) l ->
  Curator.index_by_email l d = Raise (KeyError "Email").
Proof.
  intros H. revert d. induction H as [r l Hr|r l _ IH]; intros d; simpl.
  - unfold getitem. fold (row_email r). rewrite Hr. reflexivity.
  - unfold getitem. fold (row_email r).
    destruct (row_email r); simpl; [apply IH | reflexivity].
Qed.

Lemma has_email_or_not (l : list row) :
  Forall (fun r => row_email r <> None) l \/ Exists (fun r => row_email r = None) l.
Proof.
  induction l as [|r l [IH|IH]].
  - left. constructor.
  - destruct (row_email r) eqn:E.
    + left. constructor; [congruence | exact IH].
    + right. apply Exists_cons_hd. exact E.
  - right. apply Exists_cons_tl. exact IH.
Qed.

(** No output exists only when [open] raised. *)
Lemma print_output_file_unopened (destination : string) (data : stream row) :
  fst (Curator.print_output_file open_error destination data) = None ->
  exists text,
    Curator.is_stdout destination = false /\
    open_error destination = Some text /\
    Curator.print_output_file open_error destination data =
      (None, Raise (OSError text)).
Proof.
  unfold Curator.print_output_file, Curator.write_and_close.
  destruct (Curator.writerows data [Curator.fieldnames]) as [records r].
  destruct (Curator.is_stdout destination); [discriminate|].
  destruct (open_error destination) as [text|]; [|discriminate].
  intros _. exists text. repeat split.
Qed.

Lemma run_pipeline_missing_email_raises (data : list row) (name : string) :
  Exists (fun r => row_email r = None) data ->
  Curator.run_pipeline open_error data name = (None, Raise (KeyError "Email")).
Proof.
  intros H. unfold Curator.run_pipeline, Curator.remove_duplicates.
  rewrite (index_by_email_missing data [] H). reflexivity.
Qed.

(** X1. The run stops with [KeyError: 'Email'] before the destination is
    opened exactly when some row read has no Email column. *)
Theorem run_pipeline_missing_email (data : list row) (name : string) :
  Exists (fun r => row_email r = None) data <->
  Curator.run_pipeline open_error data name = (None, Raise (KeyError "Email")).
Proof.
  split.
  - apply run_pipeline_missing_email_raises.
  - intros H. destruct (has_email_or_not data) as [Hall|Hex]; [|exact Hex].
    exfalso. destruct (remove_duplicates_characterised data Hall) as [out [E _]].
    unfold Curator.run_pipeline in H. rewrite E in H. cbv beta iota zeta in H.
    destruct (print_output_file_unopened name
                (Curator.find_country_names (Curator.split_names (iter out))))
      as [text [_ [_ E']]].
    + rewrite H. reflexivity.
    + rewrite E' in H. discriminate.
Qed.

Lemma first_seen_length {K : Type} (K_eq_dec : forall x y : K, {x = y} + {x <> y})
      (l : list K) :
  List.length (first_seen K_eq_dec l) <= List.length l.
Proof.
  induction l as [|x l IH]; simpl.
  - lia.
  - pose proof (filter_length_le
                  (fun y => if K_eq_dec x y then false else true)
                  (first_seen K_eq_dec l)).
    lia.
Qed.

Lemma remove_duplicates_emails (data out : list row) :
  Curator.remove_duplicates data = Ok out ->
  map row_email out = first_seen option_cell_eq_dec (map row_email data) /\
  NoDup (map row_email out).
Proof.
  intros Hd.
  destruct (remove_duplicates_characterised data
              (remove_duplicates_has_email data out Hd))
    as [out' [E [Hfirst [Hnd _]]]].
  rewrite Hd in E. injection E as <-. split; assumption.
Qed.

(** X2. [remove_duplicates] only drops rows: each row returned is a row of
    the input, no more rows come out than went in, and an Email occurs in
    the output exactly when it occurs in the input. *)
Theorem remove_duplicates_only_drops (data out : list row) :
  Curator.remove_duplicates data = Ok out ->
  (forall r, In r out -> In r data) /\
  List.length out <= List.length data /\
  (forall e, In e (map row_email out) <-> In e (map row_email data)).
Proof.
  intros Hd. destruct (remove_duplicates_emails data out Hd) as [Hfirst _].
  split; [|split].
  - intros r. apply remove_duplicates_In. exact Hd.
  - rewrite <- (length_map row_email out), Hfirst.
    rewrite <- (length_map row_email data). apply first_seen_length.
  - intros e. rewrite Hfirst. apply In_first_seen.
Qed.

(** X3. [remove_duplicates] is idempotent: its output passes through it
    unchanged. *)
Theorem remove_duplicates_idempotent (data out : list row) :
  Curator.remove_duplicates data = Ok out ->
  Curator.remove_duplicates out = Ok out.
Proof.
  intros Hd. apply remove_duplicates_unique.
  - pose proof (remove_duplicates_has_email data out Hd) as Hall.
    rewrite Forall_forall in *. intros r Hr. apply Hall.
    eapply remove_duplicates_In; eassumption.
  - apply (remove_duplicates_emails data out Hd).
Qed.

(** ** split_names and find_country_names: what the new fields satisfy *)

Lemma has_char_first (c : ascii) (s : string) :
  has_char c s = true ->
  exists a b, s = a ++ String c b /\ has_char c a = false.
Proof.
  induction s as [|x s IH]; simpl; intros H.
  - discriminate.
  - destruct (Ascii.eqb x c) eqn:E.
    + apply Ascii.eqb_eq in E. subst x. exists "", s. split; reflexivity.
    + simpl in H. destruct (IH H) as [a [b [-> Ha]]].
      exists (String x a), b. split; [reflexivity|]. simpl. rewrite E. exact Ha.
Qed.

(** X4. FirstName and Surname put Nome back together: FirstName has no
    space, and Nome is FirstName, one space and Surname when Nome has a
    space, and FirstName alone (with an empty Surname) when it has none. *)
Theorem split_names_reconstructs_nome (r : row) (nome : string) :
  getitem "Nome" r = Ok (Str nome) ->
  exists r' first surname,
    Curator.split_names_transform r = Ok r' /\
    getitem "FirstName" r' = Ok (Str first) /\
    getitem "Surname" r' = Ok (Str surname) /\
    has_char " " first = false /\
    nome = (if has_char " " nome then first ++ " " ++ surname else first) /\
    (has_char " " nome = false -> surname = "").
Proof.
  intros Hnome.
  destruct (split_names_transform_parts r nome Hnome) as [f [s [Ht [Hno Hsp]]]].
  exists (setitem "Surname" (Str s) (setitem "FirstName" (Str f) r)), f, s.
  split; [exact Ht|]. split; [|split].
  - rewrite getitem_setitem_other by discriminate. apply getitem_setitem_same.
  - apply getitem_setitem_same.
  - destruct (has_char " " nome) eqn:Hc.
    + destruct (has_char_first " " nome Hc) as [a [b [E Ha]]].
      destruct (Hsp a b E Ha) as [-> ->].
      split; [exact Ha|]. split; [exact E | discriminate].
    + destruct (Hno eq_refl) as [-> ->].
      split; [exact Hc|]. split; [reflexivity | reflexivity].
Qed.

Lemma str_split_pieces_no_sep (sep : ascii) (s p : string) :
  In p (str_split sep None s) -> has_char sep p = false.
Proof.
  revert p. induction s as [|c s IH]; intros p Hin.
  - simpl in Hin. destruct Hin as [<-|[]]. reflexivity.
  - simpl in Hin. pose proof (str_split_nonempty sep None s) as Hne.
    destruct (str_split sep None s) as [|q qs] eqn:E; [congruence|].
    destruct (Ascii.eqb c sep) eqn:Ec.
    + destruct Hin as [<-|Hin]; [reflexivity | apply IH; exact Hin].
    + destruct Hin as [<-|Hin].
      * simpl. rewrite Ec. apply IH. left. reflexivity.
      * apply IH. right. exact Hin.
Qed.

Lemma index_last_In (l : list string) (x : string) :
  index_last l = Ok x -> In x l.
Proof.
  unfold index_last. intros H. apply in_rev.
  destruct (rev l) as [|y ys]; [discriminate|].
  injection H as ->. left. reflexivity.
Qed.

(** X5. Whatever the Email, the Country that [find_country_names] writes
    is a string of exactly 2 characters with no dot in it. *)
Theorem find_country_names_two_characters (r r' : row) :
  Curator.find_country_names_transform r = Ok r' ->
  exists country,
    getitem "Country" r' = Ok (Str country) /\
    String.length country = 2 /\
    has_char "." country = false.
Proof.
  unfold Curator.find_country_names_transform. intros H.
  destruct (getitem "Email" r) as [[email|]|e]; simpl in H; try discriminate.
  destruct (index_last (str_split "." None email)) as [tld|e] eqn:El;
    simpl in H; [|discriminate].
  injection H as <-. eexists. split; [apply getitem_setitem_same|].
  destruct (String.length tld =? 2)%nat eqn:Elen.
  - split; [apply Nat.eqb_eq; exact Elen|].
    eapply str_split_pieces_no_sep. apply index_last_In. exact El.
  - split; reflexivity.
Qed.

Lemma dict_keys_setitem_cases (key : string) (v : cell) (r : row) :
  exists added,
    dict_keys (setitem key v r) = (dict_keys r ++ added)%list /\
    incl added [key] /\
    (NoDup (dict_keys r) -> NoDup (dict_keys (setitem key v r))).
Proof.
  unfold setitem. rewrite dict_keys_set.
  destruct (mem string_dec key (dict_keys r)) eqn:Hm.
  - exists []. rewrite app_nil_r. split; [reflexivity|].
    split; [intros x []|auto].
  - exists [key]. split; [reflexivity|]. split; [apply incl_refl|].
    intros Hnd. apply mem_false_iff in Hm.
    apply NoDup_app; [exact Hnd | repeat constructor; intros [] |].
    intros x Hx [<-|[]]. contradiction.
Qed.

Lemma dict_keys_setitem_eq (key : string) (v : cell) (r : row) :
  dict_keys (setitem key v r) =
  (dict_keys r ++ if mem string_dec key (dict_keys r) then [] else [key])%list.
Proof.
  unfold setitem. rewrite dict_keys_set.
  destruct (mem string_dec key (dict_keys r)); [rewrite app_nil_r|]; reflexivity.
Qed.

Lemma mem_app_other (k : string) (l l' : list string) :
  ~ In k l' -> mem string_dec k (l ++ l') = mem string_dec k l.
Proof.
  clear open_error.
  intros H. destruct (mem string_dec k l) eqn:E.
  - apply mem_true_iff. apply in_or_app. left. apply mem_true_iff in E. exact E.
  - apply mem_false_iff. apply mem_false_iff in E. intros Hin.
    apply in_app_or in Hin. tauto.
Qed.

(** X6. The two row transformations keep the columns of a row in place:
    the keys of the result are the keys of the row, in their order,
    followed by exactly those of FirstName, Surname and Country that the
    row did not have, in this order; keys stay distinct. *)
Theorem curate_row_keeps_columns (r r' : row) :
  curate_row r = Ok r' ->
  dict_keys r' =
    (dict_keys r
       ++ filter (fun k => negb (mem string_dec k (dict_keys r)))
                 ["FirstName"; "Surname"; "Country"])%list /\
  (NoDup (dict_keys r) -> NoDup (dict_keys r')).
Proof.
  clear open_error.
  intros H. destruct (curate_row_shape r r' H) as [f [s [c ->]]]. split.
  - rewrite !dict_keys_setitem_eq.
    rewrite (mem_app_other "Surname" (dict_keys r)
               (if mem string_dec "FirstName" (dict_keys r)
                then [] else ["FirstName"]))
      by (destruct (mem string_dec "FirstName" (dict_keys r)); simpl;
          intuition discriminate).
    rewrite (mem_app_other "Country"
               (dict_keys r ++
                (if mem string_dec "FirstName" (dict_keys r)
                 then [] else ["FirstName"]))
               (if mem string_dec "Surname" (dict_keys r)
                then [] else ["Surname"]))
      by (destruct (mem string_dec "Surname" (dict_keys r)); simpl;
          intuition discriminate).
    rewrite (mem_app_other "Country" (dict_keys r)
               (if mem string_dec "FirstName" (dict_keys r)
                then [] else ["FirstName"]))
      by (destruct (mem string_dec "FirstName" (dict_keys r)); simpl;
          intuition discriminate).
    simpl filter.
    destruct (mem string_dec "FirstName" (dict_keys r)),
             (mem string_dec "Surname" (dict_keys r)),
             (mem string_dec "Country" (dict_keys r)); simpl;
      rewrite ?app_nil_r, <- ?app_assoc; reflexivity.
  - intros Hnd.
    destruct (dict_keys_setitem_cases "FirstName" (Str f) r) as [_ [_ [_ N1]]].
    destruct (dict_keys_setitem_cases "Surname" (Str s)
                (setitem "FirstName" (Str f) r)) as [_ [_ [_ N2]]].
    destruct (dict_keys_setitem_cases "Country" (Str c)
                (setitem "Surname" (Str s) (setitem "FirstName" (Str f) r)))
      as [_ [_ [_ N3]]].
    auto.
Qed.

(** ** print_output_file: what reaches the destination *)

Lemma dict_to_list_length (r : row) (record : list string) :
  Curator.dict_to_list r = Ok record -> List.length record = 5.
Proof.
  unfold Curator.dict_to_list.
  destruct (filter (fun k => negb (mem string_dec k Curator.fieldnames))
                   (dict_keys r)); [|discriminate].
  intros H. injection H as <-. reflexivity.
Qed.

Lemma writerows_lengths (data : stream row) (written : list (list string)) :
  Forall (fun record => List.length record = 5) written ->
  Forall (fun record => List.length record = 5)
         (fst (Curator.writerows data written)).
Proof.
  revert written. induction data as [|r rest IH|e]; intros written H; simpl.
  - exact H.
  - destruct (Curator.dict_to_list r) as [record|e] eqn:E; [|exact H].
    apply IH. apply Forall_app. split; [exact H|].
    constructor; [eapply dict_to_list_length; exact E | constructor].
  - exact H.
Qed.

(** X7. A destination that spells "-" or "stdout", in any letter case, is
    the standard output: nothing is opened and nothing is closed.  Any
    other destination is opened as a file: when [open] raises, its
    [OSError] ends the call with no output; otherwise the file is closed
    when the call returns or raises.  Every record that reaches an output
    has exactly 5 fields. *)
Theorem print_output_file_records_and_handle (destination : string)
        (data : stream row) :
  (forall o, fst (Curator.print_output_file open_error destination data) = Some o ->
     Forall (fun record => List.length record = 5) (Curator.out_records o)) /\
  (spells "-" destination = true \/ spells "stdout" destination = true ->
   exists o,
     fst (Curator.print_output_file open_error destination data) = Some o /\
     Curator.out_sink o = Curator.Stdout /\ Curator.out_closed o = false) /\
  (spells "-" destination = false -> spells "stdout" destination = false ->
   (forall text, open_error destination = Some text ->
      Curator.print_output_file open_error destination data =
        (None, Raise (OSError text))) /\
   (open_error destination = None ->
    exists o,
      fst (Curator.print_output_file open_error destination data) = Some o /\
      Curator.out_sink o = Curator.File destination /\
      Curator.out_closed o = true)).
Proof.
  unfold Curator.print_output_file, Curator.write_and_close.
  rewrite is_stdout_spells.
  pose proof (writerows_lengths data [Curator.fieldnames]) as Hlen.
  destruct (Curator.writerows data [Curator.fieldnames]) as [records r].
  simpl in Hlen.
  assert (H5 : Forall (fun record => List.length record = 5) records).
  { apply Hlen. constructor; [reflexivity | constructor]. }
  split; [|split].
  - intros o.
    destruct (spells "-" destination || spells "stdout" destination).
    + intros H. injection H as <-. exact H5.
    + destruct (open_error destination); [discriminate|].
      intros H. injection H as <-. exact H5.
  - intros H.
    assert (E : spells "-" destination || spells "stdout" destination = true).
    { apply orb_true_iff. exact H. }
    rewrite E. eexists. repeat split.
  - intros H1 H2. rewrite H1, H2. simpl. split.
    + intros text ->. reflexivity.
    + intros ->. eexists. repeat split.
Qed.

Lemma filter_nil_inv {A : Type} (f : A -> bool) (l : list A) :
  filter f l = [] -> forall x, In x l -> f x = false.
Proof.
  induction l as [|a l IH]; simpl; intros H x Hx.
  - contradiction.
  - destruct (f a) eqn:E; [discriminate|].
    destruct Hx as [<-|Hx]; [exact E | apply IH; assumption].
Qed.

Lemma dict_to_list_Ok_inv (r : row) (record : list string) :
  Curator.dict_to_list r = Ok record ->
  incl (dict_keys r) Curator.fieldnames /\ record = record_of r.
Proof.
  intros H.
  assert (Hincl : incl (dict_keys r) Curator.fieldnames).
  { unfold Curator.dict_to_list in H.
    destruct (filter (fun k => negb (mem string_dec k Curator.fieldnames))
                     (dict_keys r)) eqn:E; [|discriminate].
    intros k Hk. pose proof (filter_nil_inv _ _ E k Hk) as Hf.
    apply negb_false_iff in Hf. apply mem_true_iff in Hf. exact Hf. }
  split; [exact Hincl|].
  rewrite (dict_to_list_ok r Hincl) in H. congruence.
Qed.

Lemma dict_to_list_Raise_inv (r : row) (e : exn) :
  Curator.dict_to_list r = Raise e ->
  ~ incl (dict_keys r) Curator.fieldnames /\
  exists wrong,
    e = ValueError wrong /\
    (forall k, In k wrong <-> In k (dict_keys r) /\ ~ In k Curator.fieldnames).
Proof.
  intros H. split.
  - intros Hincl. rewrite (dict_to_list_ok r Hincl) in H. discriminate.
  - unfold Curator.dict_to_list in H.
    destruct (filter (fun k => negb (mem string_dec k Curator.fieldnames))
                     (dict_keys r)) as [|w ws] eqn:E; [discriminate|].
    injection H as <-. exists (w :: ws). split; [reflexivity|].
    intros k. rewrite <- E, filter_In, negb_true_iff.
    split; intros [Hk Hm]; (split; [exact Hk|]).
    + apply mem_false_iff in Hm. exact Hm.
    + apply mem_false_iff. exact Hm.
Qed.

(** The rows written are the longest run of rows without a foreign column
    at the head of what the iterator yields. *)
Lemma writerows_outcome (data : stream row) (written : list (list string)) :
  exists pre rest,
    yielded data = (pre ++ rest)%list /\
    Forall (fun r => incl (dict_keys r) Curator.fieldnames) pre /\
    fst (Curator.writerows data written) = (written ++ map record_of pre)%list /\
    ((rest = [] /\ snd (Curator.writerows data written) = ending data) \/
     (exists bad rest' wrong,
        rest = bad :: rest' /\
        ~ incl (dict_keys bad) Curator.fieldnames /\
        snd (Curator.writerows data written) = Raise (ValueError wrong) /\
        (forall k, In k wrong <->
                   In k (dict_keys bad) /\ ~ In k Curator.fieldnames))).
Proof.
  revert written. induction data as [|r data IH|e]; intros written; simpl.
  - exists [], []. simpl. rewrite app_nil_r. repeat split; auto.
  - destruct (Curator.dict_to_list r) as [record|e] eqn:E.
    + destruct (dict_to_list_Ok_inv r record E) as [Hr ->].
      destruct (IH (written ++ [record_of r])%list)
        as [pre [rest [Hy [Hpre [Hfst Hcases]]]]].
      exists (r :: pre), rest. split; [simpl; rewrite Hy; reflexivity|].
      split; [constructor; assumption|].
      split; [rewrite Hfst, <- app_assoc; reflexivity|]. exact Hcases.
    + destruct (dict_to_list_Raise_inv r e E) as [Hbad [wrong [-> Hwrong]]].
      exists [], (r :: yielded data). split; [reflexivity|].
      split; [constructor|]. split; [simpl; rewrite app_nil_r; reflexivity|].
      right. exists r, (yielded data), wrong. repeat split; auto; apply Hwrong; auto.
  - exists [], []. simpl. rewrite app_nil_r. repeat split; auto.
Qed.

Lemma writerows_ok_iff (data : stream row) (written : list (list string)) :
  snd (Curator.writerows data written) = Ok tt <->
  ending data = Ok tt /\
  Forall (fun r => incl (dict_keys r) Curator.fieldnames) (yielded data).
Proof.
  destruct (writerows_outcome data written)
    as [pre [rest [Hy [Hpre [_ Hcases]]]]].
  destruct Hcases as [[-> Hend]|[bad [rest' [wrong [-> [Hbad [Hraise _]]]]]]].
  - rewrite Hend, Hy, app_nil_r. split.
    + intros H. split; [exact H | exact Hpre].
    + intros [H _]. exact H.
  - rewrite Hraise, Hy. split; [discriminate|].
    intros [_ Hall]. exfalso. apply Hbad.
    rewrite Forall_forall in Hall. apply Hall.
    apply in_or_app. right. left. reflexivity.
Qed.

Lemma opens_or_not (destination : string) :
  opens open_error destination \/
  exists text,
    Curator.is_stdout destination = false /\
    open_error destination = Some text /\
    forall data,
      Curator.print_output_file open_error destination data =
        (None, Raise (OSError text)).
Proof.
  unfold opens, names_stdout, Curator.print_output_file.
  rewrite <- is_stdout_spells.
  destruct (Curator.is_stdout destination); [left; left; reflexivity|].
  destruct (open_error destination) as [text|]; [|left; right; reflexivity].
  right. exists text. repeat split.
Qed.

(** X8. When the destination is the standard output or a file that opens,
    it receives the header and then the five fields of the rows that come
    before the first row with a column outside the five, or of all rows the
    iterator yields when there is none.  In the first case the call raises
    the [ValueError] of that row, which names its foreign columns; in the
    second it ends as the iterator ends.  So the write succeeds exactly
    when the iterator ends without an exception and no row it yields has a
    foreign column. *)
Theorem print_output_file_outcome (destination : string) (data : stream row) :
  opens open_error destination ->
  exists o pre rest,
    fst (Curator.print_output_file open_error destination data) = Some o /\
    yielded data = (pre ++ rest)%list /\
    Forall (fun r => incl (dict_keys r) Curator.fieldnames) pre /\
    Curator.out_records o = Curator.fieldnames :: map record_of pre /\
    ((rest = [] /\
      snd (Curator.print_output_file open_error destination data) = ending data) \/
     (exists bad rest' wrong,
        rest = bad :: rest' /\
        ~ incl (dict_keys bad) Curator.fieldnames /\
        snd (Curator.print_output_file open_error destination data) =
          Raise (ValueError wrong) /\
        (forall k, In k wrong <->
                   In k (dict_keys bad) /\ ~ In k Curator.fieldnames))) /\
    (snd (Curator.print_output_file open_error destination data) = Ok tt <->
     ending data = Ok tt /\
     Forall (fun r => incl (dict_keys r) Curator.fieldnames) (yielded data)).
Proof.
  intros Hopen. rewrite (print_output_file_opens open_error destination data Hopen).
  destruct (writerows_outcome data [Curator.fieldnames])
    as [pre [rest [Hy [Hpre [Hfst Hcases]]]]].
  eexists. exists pre, rest. simpl fst. simpl snd.
  split; [reflexivity|]. split; [exact Hy|]. split; [exact Hpre|].
  split; [simpl; rewrite Hfst; reflexivity|]. split; [exact Hcases|].
  apply writerows_ok_iff.
Qed.

(** ** The curated list *)

Lemma curate_rows_emails (tmp0 out : list row) :
  Forall2 (fun r r' => curate_row r = Ok r') tmp0 out ->
  map row_email out = map row_email tmp0.
Proof.
  induction 1 as [|r r' l l' Hr _ IH]; simpl.
  - reflexivity.
  - rewrite IH, (curate_row_email r r' Hr). reflexivity.
Qed.

(** X9. In a curated list the Emails are pairwise distinct and are the
    Emails of the input; the list is no longer than the input, and each of
    its rows is an input row put through [split_names] and
    [find_country_names]. *)
Theorem curate_unique_emails (data out : list row) :
  Curator.curate data = Ok out ->
  NoDup (map row_email out) /\
  (forall e, In e (map row_email out) <-> In e (map row_email data)) /\
  List.length out <= List.length data /\
  (forall r', In r' out -> exists r, In r data /\ curate_row r = Ok r').
Proof.
  intros H. apply curate_rows in H. destruct H as [tmp0 [Hd Hrows]].
  destruct (remove_duplicates_emails data tmp0 Hd) as [Hfirst Hnd].
  pose proof (curate_rows_emails tmp0 out Hrows) as Hem.
  split; [|split; [|split]].
  - rewrite Hem. exact Hnd.
  - intros e. rewrite Hem, Hfirst. apply In_first_seen.
  - rewrite <- (Forall2_length Hrows).
    rewrite <- (length_map row_email tmp0), Hfirst.
    rewrite <- (length_map row_email data). apply first_seen_length.
  - intros r' Hin.
    destruct (Forall2_In_right _ _ _ _ Hrows Hin) as [r [Hr Hrr']].
    exists r. split; [eapply remove_duplicates_In; eassumption | exact Hrr'].
Qed.

(** ** The script as a whole *)

Lemma run_pipeline_ok_iff (data : list row) (name : string) :
  snd (Curator.run_pipeline open_error data name) = Ok tt <->
  opens open_error name /\
  exists out,
    Curator.curate data = Ok out /\
    Forall (fun r => incl (dict_keys r) Curator.fieldnames) out.
Proof.
  unfold Curator.run_pipeline, Curator.curate.
  destruct (Curator.remove_duplicates data) as [tmp0|e]; simpl.
  - set (S := Curator.find_country_names (Curator.split_names (iter tmp0))).
    destruct (opens_or_not name) as [Hopen|[text [Hstd [Herr Hfail]]]].
    + rewrite (print_output_file_opens open_error name S Hopen). simpl snd.
      rewrite writerows_ok_iff. unfold collect. split.
      * intros [He Hall]. split; [exact Hopen|].
        exists (yielded S). rewrite He. split; [reflexivity | exact Hall].
      * intros [_ [out [Hc Hall]]].
        destruct (ending S) as [[]|e]; [|discriminate].
        injection Hc as <-. split; [reflexivity | exact Hall].
    + rewrite Hfail. simpl. split; [discriminate|].
      intros [[H|H] _];
        [unfold names_stdout in H; rewrite <- is_stdout_spells in H|];
        congruence.
  - split; [discriminate | intros [_ [out [H _]]]; discriminate].
Qed.

(** X10. The script finishes normally exactly when it is given two
    arguments, the input file exists and parses, curation of its rows
    succeeds, no curated row has a column outside the five, and the
    destination is the standard output or a file that opens. *)
Theorem main_finishes_iff (DictReader : string -> result (list row))
        (fs : filesystem) (argv : list string) :
  Curator.run_status (Curator.main open_error DictReader fs argv) = Curator.Finished <->
  List.length argv = 3 /\
  opens open_error (nth 2 argv "") /\
  exists text data out,
    fs (nth 1 argv "") = Some text /\
    DictReader text = Ok data /\
    Curator.curate data = Ok out /\
    Forall (fun r => incl (dict_keys r) Curator.fieldnames) out.
Proof.
  unfold Curator.main.
  destruct (List.length argv =? 3)%nat eqn:Hlen; simpl.
  - apply Nat.eqb_eq in Hlen.
    unfold Curator.run_pipeline_files, Curator.read_input_file.
    destruct (fs (nth 1 argv "")) as [text|]; simpl.
    + destruct (DictReader text) as [data|e] eqn:Edr; simpl.
      * pose proof (run_pipeline_ok_iff data (nth 2 argv "")) as Hiff.
        destruct (Curator.run_pipeline open_error data (nth 2 argv "")) as [o r].
        simpl in *. split.
        -- intros H. split; [exact Hlen|].
           destruct r as [[]|e]; [|discriminate].
           destruct (proj1 Hiff eq_refl) as [Hopen [out [Hc Hall]]].
           split; [exact Hopen|].
           exists text, data, out. repeat split; auto.
        -- intros [_ [Hopen [text' [data' [out [Ht [Hd [Hc Hall]]]]]]]].
           injection Ht as <-. rewrite Edr in Hd. injection Hd as <-.
           rewrite (proj2 Hiff (conj Hopen (ex_intro _ out (conj Hc Hall)))).
           reflexivity.
      * split; [discriminate|].
        intros [_ [_ [text' [data' [out [Ht [Hd _]]]]]]].
        injection Ht as <-. congruence.
    + split; [discriminate|].
      intros [_ [_ [text' [data' [out [Ht _]]]]]]. discriminate.
  - apply Nat.eqb_neq in Hlen. split; [discriminate | intros [H _]; congruence].
Qed.

(** X11. The script opens the destination only after its arguments were
    accepted, the input file was found and parsed, and every row was seen
    to have an Email; when it exits by [sys.exit] the code is 1, one line
    is on the error stream and the destination is untouched. *)
Theorem main_opens_destination_late (DictReader : string -> result (list row))
        (fs : filesystem) (argv : list string) :
  (forall o, Curator.run_output (Curator.main open_error DictReader fs argv) = Some o ->
     List.length argv = 3 /\
     exists text data,
       fs (nth 1 argv "") = Some text /\
       DictReader text = Ok data /\
       Forall (fun r => row_email r <> None) data) /\
  (forall code, Curator.run_status (Curator.main open_error DictReader fs argv)
                = Curator.Exited code ->
     code = 1 /\
     Curator.run_output (Curator.main open_error DictReader fs argv) = None /\
     List.length (Curator.run_stderr (Curator.main open_error DictReader fs argv)) = 1 /\
     (List.length argv <> 3 \/ fs (nth 1 argv "") = None)).
Proof.
  unfold Curator.main.
  destruct (List.length argv =? 3)%nat eqn:Hlen; simpl.
  - apply Nat.eqb_eq in Hlen.
    unfold Curator.run_pipeline_files, Curator.read_input_file.
    destruct (fs (nth 1 argv "")) as [text|]; simpl.
    + destruct (DictReader text) as [data|e] eqn:Edr; simpl.
      * destruct (Curator.run_pipeline open_error data (nth 2 argv "")) as [o r] eqn:Er.
        simpl. split.
        -- intros o' Ho. subst o. split; [exact Hlen|].
           exists text, data. split; [reflexivity|]. split; [exact Edr|].
           destruct (has_email_or_not data) as [Hall|Hex]; [exact Hall|].
           apply (run_pipeline_missing_email_raises data (nth 2 argv "")) in Hex.
           rewrite Hex in Er. discriminate.
        -- intros code H. destruct r; discriminate.
      * split; [discriminate | discriminate].
    + split; [discriminate|]. intros code H. injection H as <-.
      repeat split. right. reflexivity.
  - apply Nat.eqb_neq in Hlen. split; [discriminate|].
    intros code H. injection H as <-. repeat split. left. exact Hlen.
Qed.

(** * Further properties of the mailer *)

(** ** The body of a message at the edges *)


(** ** Iterators *)

Lemma yielded_iter {A : Type} (l : list A) : yielded (iter l) = l.
Proof.
  induction l as [|a l IH]; simpl; [|rewrite IH]; reflexivity.
Qed.

Lemma yielded_lazy_map {A B : Type} (f : A -> result B) (it : stream A) (b : B) :
  In b (yielded (lazy_map f it)) -> exists a, In a (yielded it) /\ f a = Ok b.
Proof.
  induction it as [|a rest IH|e]; simpl; intros H.
  - contradiction.
  - destruct (f a) as [b'|e] eqn:E; simpl in H; [|contradiction].
    destruct H as [<-|H].
    + exists a. split; [left; reflexivity | exact E].
    + destruct (IH H) as [a' [Ha' Hf]]. exists a'. split; [right|]; assumption.
  - contradiction.
Qed.

Lemma yielded_lazy_filter {A : Type} (p : A -> result bool) (it : stream A)
      (a : A) :
  In a (yielded (lazy_filter p it)) -> In a (yielded it) /\ p a = Ok true.
Proof.
  induction it as [|x rest IH|e]; simpl; intros H.
  - contradiction.
  - destruct (p x) as [[|]|e] eqn:E; simpl in H.
    + destruct H as [<-|H]; [split; [left; reflexivity | exact E]|].
      destruct (IH H) as [Hin Hp]. split; [right|]; assumption.
    + destruct (IH H) as [Hin Hp]. split; [right|]; assumption.
    + contradiction.
  - contradiction.
Qed.

(** ** send_batch in dry-run mode *)

Lemma report_all_stream (messages : stream Mailer.EmailMessage) :
  Mailer.report_all header_text messages =
    (map (report_line header_text) (yielded messages), dry_run_end (ending messages)).
Proof.
  induction messages as [|m rest IH|e]; simpl.
  - reflexivity.
  - rewrite IH. reflexivity.
  - reflexivity.
Qed.

Lemma send_batch_dry_run_stream_eq (server : Mailer.smtp_server)
      (messages : stream Mailer.EmailMessage) (host user : string)
      (password : option string) :
  Mailer.send_batch header_text server messages host user password true =
    (dry_run_banner :: map (report_line header_text) (yielded messages),
     dry_run_end (ending messages)).
Proof.
  unfold Mailer.send_batch. rewrite report_all_stream. reflexivity.
Qed.

(** X13. A dry run prints the banner and one line per message the
    iterator yields; when the iterator raises, the exception is caught by
    nothing: the lines of the earlier messages are out and the run ends
    with that exception. *)
Theorem send_batch_dry_run_stream (server : Mailer.smtp_server)
        (messages : stream Mailer.EmailMessage) (host user : string)
        (password : option string) :
  Mailer.send_batch header_text server messages host user password true =
    (dry_run_banner :: map (report_line header_text) (yielded messages),
     dry_run_end (ending messages)).
Proof.
  unfold Mailer.send_batch. rewrite report_all_stream. reflexivity.
Qed.

(** ** send_batch in live mode *)

Lemma leave_some (server : Mailer.smtp_server) (e : exn) :
  exists e', Mailer.leave server (Some e) = Some e'.
Proof.
  unfold Mailer.leave. destruct (Mailer.quit_reply server); eexists; reflexivity.
Qed.

Lemma handle_exits (e : exn) :
  exists line, Mailer.handle e = ([Mailer.EPrintErr line], Mailer.Exits 1).
Proof.
  destruct e; eexists; reflexivity.
Qed.

Lemma send_all_accepting (server : Mailer.smtp_server) (i : nat)
      (messages : stream Mailer.EmailMessage) :
  (forall j msg, Mailer.send_reply server j msg = None) ->
  Mailer.send_all header_text server i messages =
    (flat_map (sent_block header_text) (yielded messages),
     match ending messages with Ok _ => None | Raise e => Some e end).
Proof.
  intros Hacc. revert i. induction messages as [|m rest IH|e]; intros i; simpl.
  - reflexivity.
  - rewrite Hacc, IH. reflexivity.
  - reflexivity.
Qed.

(** X14. With a relay that accepts every call, the closing QUIT
    included, a live run connects to port 587, upgrades to TLS, logs in,
    and for each message the iterator yields sends it, prints "Sent to:"
    with the text of its To header and sleeps 2 seconds, the last message
    included; then the session is closed.  An exception raised by the
    iterator ends the run after the close, with a line on the error stream
    and exit code 1. *)
Theorem send_batch_live_accepting (server : Mailer.smtp_server)
        (messages : stream Mailer.EmailMessage) (host user : string)
        (password : option string) :
  Mailer.connect_reply server = None ->
  Mailer.starttls_reply server = None ->
  Mailer.login_reply server user password = None ->
  (forall j msg, Mailer.send_reply server j msg = None) ->
  Mailer.quit_reply server = None ->
  Mailer.send_batch header_text server messages host user password false =
    ((Mailer.EConnect host 587 :: Mailer.EStartTLS
        :: Mailer.ELogin user password
        :: flat_map (sent_block header_text) (yielded messages))
       ++ Mailer.EClose :: fst (live_end (ending messages)),
     snd (live_end (ending messages)))%list.
Proof.
  intros Hc Ht Hl Hs Hq. unfold Mailer.send_batch, Mailer.session, Mailer.leave.
  rewrite Hc, Ht, Hl, Hq, (send_all_accepting server 0 messages Hs).
  destruct (ending messages) as [[]|e]; simpl.
  - reflexivity.
  - destruct (handle_exits e) as [line ->]. simpl.
    rewrite <- app_assoc. reflexivity.
Qed.

(** X23. An exception raised by the closing QUIT decides how a live run
    ends: once the relay is connected, the run closes the session, puts
    the line "An unexpected error occurred:" with the text of that
    exception on the error stream and ends with exit code 1, whatever
    happened before; when the relay accepted the session and every
    message, all messages the iterator yields were sent before. *)
Theorem send_batch_quit_refused (server : Mailer.smtp_server)
        (messages : stream Mailer.EmailMessage) (host user : string)
        (password : option string) (q : string) :
  Mailer.connect_reply server = None ->
  Mailer.quit_reply server = Some q ->
  exists t,
    Mailer.send_batch header_text server messages host user password false =
      ((t ++ [Mailer.EClose;
              Mailer.EPrintErr ("An unexpected error occurred: " ++ q)])%list,
       Mailer.Exits 1) /\
    (Mailer.starttls_reply server = None ->
     Mailer.login_reply server user password = None ->
     (forall j msg, Mailer.send_reply server j msg = None) ->
     t = Mailer.EConnect host 587 :: Mailer.EStartTLS
           :: Mailer.ELogin user password
           :: flat_map (sent_block header_text) (yielded messages)).
Proof.
  intros Hc Hq. unfold Mailer.send_batch, Mailer.session, Mailer.leave.
  rewrite Hc, Hq.
  destruct (Mailer.starttls_reply server) as [e|].
  { exists [Mailer.EConnect host 587; Mailer.EStartTLS].
    split; [reflexivity | discriminate]. }
  destruct (Mailer.login_reply server user password) as [e|].
  { exists [Mailer.EConnect host 587; Mailer.EStartTLS;
            Mailer.ELogin user password].
    split; [reflexivity | discriminate]. }
  pose proof (send_all_accepting server 0 messages) as Hacc.
  destruct (Mailer.send_all header_text server 0 messages) as [t r].
  exists (Mailer.EConnect host 587 :: Mailer.EStartTLS
            :: Mailer.ELogin user password :: t).
  split.
  - simpl. rewrite <- app_assoc. reflexivity.
  - intros _ _ Hs. specialize (Hacc Hs). injection Hacc as -> _. reflexivity.
Qed.

Lemma send_all_refused (server : Mailer.smtp_server) (i : nat)
      (pre post : list Mailer.EmailMessage) (msg : Mailer.EmailMessage)
      (e : exn) :
  (forall j m, j < List.length pre -> Mailer.send_reply server (i + j) m = None) ->
  Mailer.send_reply server (i + List.length pre) msg = Some e ->
  Mailer.send_all header_text server i (iter (pre ++ msg :: post)) =
    ((flat_map (sent_block header_text) pre ++ [Mailer.ESendMessage msg])%list, Some e).
Proof.
  revert i. induction pre as [|m pre IH]; intros i Hpre Hmsg; simpl.
  - rewrite Nat.add_0_r in Hmsg. rewrite Hmsg. reflexivity.
  - specialize (Hpre 0 m) as H0. rewrite Nat.add_0_r in H0.
    rewrite H0 by (simpl; lia).
    rewrite (IH (S i)).
    + reflexivity.
    + intros j m' Hj. replace (S i + j) with (i + S j) by lia.
      apply Hpre. simpl. lia.
    + replace (S i + List.length pre) with (i + List.length (m :: pre))
        by (simpl; lia).
      exact Hmsg.
Qed.

(** X15. When the relay accepts the session and the first messages,
    refuses one message and lets the session close, the messages before
    it were sent, each followed by its 2-second pause, the refused one was
    tried once, the session is closed, the line of its exception goes to
    the error stream and the exit code is 1; no later message is handed to
    the relay. *)
Theorem send_batch_stops_at_refusal (server : Mailer.smtp_server)
        (pre post : list Mailer.EmailMessage) (msg : Mailer.EmailMessage)
        (host user : string) (password : option string) (e : exn) :
  Mailer.connect_reply server = None ->
  Mailer.starttls_reply server = None ->
  Mailer.login_reply server user password = None ->
  (forall j m, j < List.length pre -> Mailer.send_reply server j m = None) ->
  Mailer.send_reply server (List.length pre) msg = Some e ->
  Mailer.quit_reply server = None ->
  Mailer.send_batch header_text server (iter (pre ++ msg :: post)) host user password false =
    ((Mailer.EConnect host 587 :: Mailer.EStartTLS
        :: Mailer.ELogin user password
        :: flat_map (sent_block header_text) pre)
       ++ Mailer.ESendMessage msg :: Mailer.EClose :: fst (Mailer.handle e),
     Mailer.Exits 1)%list /\
  send_calls
    (fst (Mailer.send_batch header_text server (iter (pre ++ msg :: post)) host user
            password false)) = (pre ++ [msg])%list.
Proof.
  intros Hc Ht Hl Hpre Hmsg Hq.
  assert (E : Mailer.send_batch header_text server (iter (pre ++ msg :: post)) host user
                password false =
              ((Mailer.EConnect host 587 :: Mailer.EStartTLS
                  :: Mailer.ELogin user password
                  :: flat_map (sent_block header_text) pre)
                 ++ Mailer.ESendMessage msg :: Mailer.EClose
                 :: fst (Mailer.handle e),
               Mailer.Exits 1)%list).
  { unfold Mailer.send_batch, Mailer.session, Mailer.leave.
    rewrite Hc, Ht, Hl, Hq.
    rewrite (send_all_refused server 0 pre post msg e Hpre Hmsg).
    destruct (handle_exits e) as [line ->]. simpl.
    rewrite <- !app_assoc. reflexivity. }
  split; [exact E|]. rewrite E. simpl.
  destruct (handle_exits e) as [line ->]. simpl.
  rewrite send_calls_app. simpl. f_equal.
  clear. induction pre as [|m pre IH]; simpl; [|rewrite IH]; reflexivity.
Qed.

Lemma send_all_events (server : Mailer.smtp_server) (i : nat)
      (messages : stream Mailer.EmailMessage) :
  let t := fst (Mailer.send_all header_text server i messages) in
  filter is_network t = map Mailer.ESendMessage (send_calls t) /\
  existsb is_stderr t = false /\
  (forall host user password, Forall (live_event host user password) t) /\
  (forall msg, In msg (send_calls t) -> In msg (yielded messages)).
Proof.
  revert i. induction messages as [|m rest IH|e]; intros i; simpl.
  - repeat split; try constructor. intros msg [].
  - destruct (Mailer.send_reply server i m).
    + simpl. repeat split.
      * repeat constructor.
      * intros msg [<-|[]]. left. reflexivity.
    + specialize (IH (S i)).
      destruct (Mailer.send_all header_text server (S i) rest) as [t r]. simpl in *.
      destruct IH as [Hn [He [Hl Hy]]]. repeat split.
      * rewrite Hn. reflexivity.
      * exact He.
      * intros host user password. repeat constructor. apply Hl.
      * intros msg [<-|H]; [left; reflexivity | right; apply Hy; exact H].
  - repeat split; try constructor. intros msg [].
Qed.

(** X16. A live run never ends by an uncaught exception: either it
    returns, with nothing on the error stream, or it exits with code 1
    and the last thing it did was to print one line on the error stream. *)
Theorem send_batch_live_catches_everything (server : Mailer.smtp_server)
        (messages : stream Mailer.EmailMessage) (host user : string)
        (password : option string) :
  let run := Mailer.send_batch header_text server messages host user password false in
  (snd run = Mailer.Returns /\ existsb is_stderr (fst run) = false) \/
  (snd run = Mailer.Exits 1 /\
   exists t line,
     fst run = (t ++ [Mailer.EPrintErr line])%list /\
     existsb is_stderr t = false).
Proof.
  unfold Mailer.send_batch, Mailer.session.
  destruct (Mailer.connect_reply server) as [e|].
  { right. destruct (handle_exits e) as [line ->]. simpl.
    split; [reflexivity|]. exists [Mailer.EConnect host 587], line.
    split; reflexivity. }
  destruct (Mailer.starttls_reply server) as [e|].
  { destruct (leave_some server e) as [e' El]; rewrite El in *; clear El;
    rename e into e0; rename e' into e. right. destruct (handle_exits e) as [line ->]. simpl.
    split; [reflexivity|].
    exists [Mailer.EConnect host 587; Mailer.EStartTLS; Mailer.EClose], line.
    split; reflexivity. }
  destruct (Mailer.login_reply server user password) as [e|].
  { destruct (leave_some server e) as [e' El]; rewrite El in *; clear El;
    rename e into e0; rename e' into e. right. destruct (handle_exits e) as [line ->]. simpl.
    split; [reflexivity|].
    exists [Mailer.EConnect host 587; Mailer.EStartTLS;
            Mailer.ELogin user password; Mailer.EClose], line.
    split; reflexivity. }
  destruct (send_all_events server 0 messages) as [_ [Herr _]].
  destruct (Mailer.send_all header_text server 0 messages) as [t r]. simpl in Herr.
  assert (Hclean : existsb is_stderr
                     ((Mailer.EConnect host 587 :: Mailer.EStartTLS
                         :: Mailer.ELogin user password :: t)
                        ++ [Mailer.EClose]) = false).
  { rewrite existsb_app. simpl. rewrite Herr. reflexivity. }
  destruct (Mailer.leave server r) as [e|].
  - right. destruct (handle_exits e) as [line ->]. simpl.
    split; [reflexivity|].
    exists ((Mailer.EConnect host 587 :: Mailer.EStartTLS
               :: Mailer.ELogin user password :: t) ++ [Mailer.EClose])%list, line.
    split; [reflexivity | exact Hclean].
  - left. split; [reflexivity | exact Hclean].
Qed.

(** X17. The network calls of a live run follow the session: after a
    failed connect nothing else is called; after a failed STARTTLS the
    session is closed and the password is never sent; after a failed
    login the session is closed and no message is sent; otherwise the
    calls are connect, STARTTLS, login, the messages, and one close that
    comes last, and the messages sent are among those the iterator
    yields. *)
Theorem send_batch_session_discipline (server : Mailer.smtp_server)
        (messages : stream Mailer.EmailMessage) (host user : string)
        (password : option string) :
  let t := fst (Mailer.send_batch header_text server messages host user password false) in
  (Mailer.connect_reply server <> None ->
   filter is_network t = [Mailer.EConnect host 587]) /\
  (Mailer.connect_reply server = None ->
   Mailer.starttls_reply server <> None ->
   filter is_network t =
     [Mailer.EConnect host 587; Mailer.EStartTLS; Mailer.EClose]) /\
  (Mailer.connect_reply server = None ->
   Mailer.starttls_reply server = None ->
   Mailer.login_reply server user password <> None ->
   filter is_network t =
     [Mailer.EConnect host 587; Mailer.EStartTLS; Mailer.ELogin user password;
      Mailer.EClose]) /\
  (Mailer.connect_reply server = None ->
   Mailer.starttls_reply server = None ->
   Mailer.login_reply server user password = None ->
   filter is_network t =
     (Mailer.EConnect host 587 :: Mailer.EStartTLS
        :: Mailer.ELogin user password
        :: map Mailer.ESendMessage (send_calls t) ++ [Mailer.EClose])%list /\
   (forall msg, In msg (send_calls t) -> In msg (yielded messages))).
Proof.
  unfold Mailer.send_batch, Mailer.session.
  destruct (Mailer.connect_reply server) as [e|].
  { destruct (handle_exits e) as [line ->]. simpl.
    repeat split; congruence. }
  destruct (Mailer.starttls_reply server) as [e|].
  { destruct (leave_some server e) as [e' El]; rewrite El in *; clear El;
    rename e into e0; rename e' into e. destruct (handle_exits e) as [line ->]. simpl.
    repeat split; congruence. }
  destruct (Mailer.login_reply server user password) as [e|].
  { destruct (leave_some server e) as [e' El]; rewrite El in *; clear El;
    rename e into e0; rename e' into e. destruct (handle_exits e) as [line ->]. simpl.
    repeat split; congruence. }
  destruct (send_all_events server 0 messages) as [Hn [_ [_ Hy]]].
  destruct (Mailer.send_all header_text server 0 messages) as [t r]. simpl in Hn, Hy.
  assert (Hnet : forall tail,
             (forall x, In x tail -> is_network x = false) ->
             send_calls tail = [] ->
             filter is_network
               (((Mailer.EConnect host 587 :: Mailer.EStartTLS
                    :: Mailer.ELogin user password :: t)
                   ++ [Mailer.EClose]) ++ tail) =
             (Mailer.EConnect host 587 :: Mailer.EStartTLS
                :: Mailer.ELogin user password
                :: map Mailer.ESendMessage
                     (send_calls
                        (((Mailer.EConnect host 587 :: Mailer.EStartTLS
                             :: Mailer.ELogin user password :: t)
                            ++ [Mailer.EClose]) ++ tail))
                ++ [Mailer.EClose])%list /\
             (forall msg,
                In msg (send_calls
                          (((Mailer.EConnect host 587 :: Mailer.EStartTLS
                               :: Mailer.ELogin user password :: t)
                              ++ [Mailer.EClose]) ++ tail)) ->
                In msg (yielded messages))).
  { intros tail Htail Hcalls.
    rewrite !send_calls_app, Hcalls. simpl. rewrite !app_nil_r.
    rewrite !filter_app. simpl. rewrite Hn.
    replace (filter is_network tail) with (@nil Mailer.event).
    - rewrite app_nil_r. split; [reflexivity | exact Hy].
    - symmetry. clear - Htail. induction tail as [|x tail IH]; simpl.
      + reflexivity.
      + rewrite (Htail x) by (left; reflexivity).
        apply IH. intros y Hy. apply Htail. right. exact Hy. }
  destruct (Mailer.leave server r) as [e|].
  - destruct (handle_exits e) as [line ->]. simpl fst.
    split; [intros H; congruence|]. split; [intros _ H; congruence|].
    split; [intros _ _ H; congruence|]. intros _ _ _.
    apply (Hnet [Mailer.EPrintErr line]).
    + intros x [<-|[]]. reflexivity.
    + reflexivity.
  - simpl fst.
    split; [intros H; congruence|]. split; [intros _ H; congruence|].
    split; [intros _ _ H; congruence|]. intros _ _ _.
    specialize (Hnet [] (fun x (H : In x []) => match H with end) eq_refl).
    rewrite app_nil_r in Hnet. exact Hnet.
Qed.

(** ** The mailer pipeline *)


Lemma send_batch_calls_yielded (server : Mailer.smtp_server)
      (messages : stream Mailer.EmailMessage) (host user : string)
      (password : option string) (dry_run : bool) (msg : Mailer.EmailMessage) :
  In msg (send_calls
            (fst (Mailer.send_batch header_text server messages host user password dry_run))) ->
  dry_run = false /\ In msg (yielded messages).
Proof.
  destruct dry_run.
  - unfold Mailer.send_batch. rewrite report_all_stream. simpl.
    assert (E : send_calls (map (report_line header_text) (yielded messages)) = []).
    { induction (yielded messages) as [|m l IH]; simpl; [reflexivity | exact IH]. }
    rewrite E. intros [].
  - intros H. split; [reflexivity|].
    unfold Mailer.send_batch, Mailer.session in H.
    destruct (Mailer.connect_reply server) as [e|].
    { destruct (handle_exits e) as [line E]. rewrite E in H. destruct H. }
    destruct (Mailer.starttls_reply server) as [e|].
    { destruct (leave_some server e) as [e' El]; rewrite El in *; clear El;
    rename e into e0; rename e' into e. destruct (handle_exits e) as [line E]. rewrite E in H. destruct H. }
    destruct (Mailer.login_reply server user password) as [e|].
    { destruct (leave_some server e) as [e' El]; rewrite El in *; clear El;
    rename e into e0; rename e' into e. destruct (handle_exits e) as [line E]. rewrite E in H. destruct H. }
    destruct (send_all_events server 0 messages) as [_ [_ [_ Hy]]].
    destruct (Mailer.send_all header_text server 0 messages) as [t r]. simpl in Hy.
    apply Hy. destruct (Mailer.leave server r) as [e|].
    + destruct (handle_exits e) as [line E]. rewrite E in H. simpl in H.
      rewrite !send_calls_app in H. simpl in H. rewrite !app_nil_r in H.
      exact H.
    + simpl in H. rewrite send_calls_app in H. simpl in H.
      rewrite app_nil_r in H. exact H.
Qed.

(** X19. Whatever the rows, the template, the relay and the mode, a
    message is handed to the relay only in live mode and only if it is the
    message of a row of the input whose Country is "br". *)
Theorem run_pipeline_sends_only_brazilians (server : Mailer.smtp_server)
        (typed : string) (data : list row) (template sender : string)
        (dry_run : bool) (msg : Mailer.EmailMessage) :
  In msg (send_calls
            (fst (Mailer.run_pipeline header_text server typed data template sender dry_run))) ->
  dry_run = false /\
  exists r,
    In r data /\
    getitem "Country" r = Ok (Str "br") /\
    Mailer.create_email r template sender = Ok msg.
Proof.
  unfold Mailer.run_pipeline. cbv zeta.
  set (messages := lazy_map (fun r => Mailer.create_email r template sender)
                            (Mailer.filter_brazilians (iter data))).
  pose proof (send_batch_calls_yielded server messages "smtp.dcc.ufmg.br" sender
                (if dry_run then None else Some typed) dry_run msg) as Hy.
  destruct (Mailer.send_batch header_text server messages "smtp.dcc.ufmg.br" sender
              (if dry_run then None else Some typed) dry_run) as [t o].
  simpl. intros H.
  assert (Hin : In msg (send_calls t)).
  { rewrite send_calls_app in H. destruct dry_run; simpl in H; exact H. }
  destruct (Hy Hin) as [Hdry Hmsg]. split; [exact Hdry|].
  unfold messages in Hmsg. apply yielded_lazy_map in Hmsg.
  destruct Hmsg as [r [Hr Hc]]. unfold Mailer.filter_brazilians in Hr.
  apply yielded_lazy_filter in Hr. destruct Hr as [Hr Hp].
  rewrite yielded_iter in Hr. exists r. split; [exact Hr|]. split; [|exact Hc].
  destruct (getitem "Country" r) as [c|e]; simpl in Hp; [|discriminate].
  injection Hp as Hp. unfold cell_eqb in Hp.
  destruct (cell_eq_dec c (Str "br")); [congruence | discriminate].
Qed.

Lemma send_batch_live_events (server : Mailer.smtp_server)
      (messages : stream Mailer.EmailMessage) (host user : string)
      (password : option string) :
  Forall (live_event host user password)
         (fst (Mailer.send_batch header_text server messages host user password false)).
Proof.
  unfold Mailer.send_batch, Mailer.session.
  destruct (Mailer.connect_reply server) as [e|].
  { destruct (handle_exits e) as [line ->]. simpl. repeat constructor. }
  destruct (Mailer.starttls_reply server) as [e|].
  { destruct (leave_some server e) as [e' El]; rewrite El in *; clear El;
    rename e into e0; rename e' into e. destruct (handle_exits e) as [line ->]. simpl. repeat constructor. }
  destruct (Mailer.login_reply server user password) as [e|].
  { destruct (leave_some server e) as [e' El]; rewrite El in *; clear El;
    rename e into e0; rename e' into e. destruct (handle_exits e) as [line ->]. simpl. repeat constructor. }
  destruct (send_all_events server 0 messages) as [_ [_ [Hl _]]].
  destruct (Mailer.send_all header_text server 0 messages) as [t r]. simpl in Hl.
  assert (Hs : Forall (live_event host user password)
                 ((Mailer.EConnect host 587 :: Mailer.EStartTLS
                     :: Mailer.ELogin user password :: t) ++ [Mailer.EClose])).
  { apply Forall_app. split; repeat constructor. apply Hl. }
  destruct (Mailer.leave server r) as [e|]; [|exact Hs].
  destruct (handle_exits e) as [line ->].
  refine (proj2 (Forall_app _
                   ((Mailer.EConnect host 587 :: Mailer.EStartTLS
                       :: Mailer.ELogin user password :: t) ++ [Mailer.EClose])
                   [Mailer.EPrintErr line]) (conj Hs _)).
  repeat constructor.
Qed.

(** X20. A dry run only prints: it asks for no password and makes no
    network call, whatever the rows.  A live run first asks for the
    password of the sender, once; it then connects only to
    smtp.dcc.ufmg.br on port 587, logs in only as the sender with the
    password typed, and every pause is 2 seconds. *)
Theorem run_pipeline_prompt_and_login (server : Mailer.smtp_server)
        (typed : string) (data : list row) (template sender : string) :
  Forall (fun e => exists line, e = Mailer.EPrint line)
         (fst (Mailer.run_pipeline header_text server typed data template sender true)) /\
  exists t,
    fst (Mailer.run_pipeline header_text server typed data template sender false) =
      Mailer.EGetpass ("Password for " ++ sender ++ ": ") :: t /\
    Forall (live_event "smtp.dcc.ufmg.br" sender (Some typed)) t.
Proof.
  unfold Mailer.run_pipeline. cbv zeta.
  set (messages := lazy_map (fun r => Mailer.create_email r template sender)
                            (Mailer.filter_brazilians (iter data))).
  split.
  - rewrite send_batch_dry_run_stream_eq. simpl.
    constructor; [eexists; reflexivity|].
    induction (yielded messages) as [|m l IH]; simpl; constructor;
      [eexists; reflexivity | exact IH].
  - pose proof (send_batch_live_events server messages "smtp.dcc.ufmg.br" sender
                  (Some typed)) as Hl.
    destruct (Mailer.send_batch header_text server messages "smtp.dcc.ufmg.br" sender
                (Some typed) false) as [t o].
    simpl in *. exists t. split; [reflexivity | exact Hl].
Qed.

(** X21. The mailer asks for a password or touches the network only after
    both files were found and the CSV was parsed.  A missing CSV ends the
    run with one line on the error stream and exit code 1 before the
    template is looked at; a missing template does the same once the CSV
    is read. *)
Theorem run_pipeline_files_needs_both_files
        (DictReader : string -> result (list row)) (fs : filesystem)
        (server : Mailer.smtp_server) (typed : string)
        (csv_file template_file sender : string) (dry_run : bool) :
  let run := Mailer.run_pipeline_files header_text DictReader fs server typed csv_file
               template_file sender dry_run in
  (forall e, In e (fst run) ->
     is_network e = true \/ (exists prompt, e = Mailer.EGetpass prompt) ->
     exists text data template,
       fs csv_file = Some text /\ DictReader text = Ok data /\
       fs template_file = Some template) /\
  (fs csv_file = None ->
   run = ([Mailer.EPrintErr ("Error: " ++ csv_file ++ " not found.")],
          Mailer.Exits 1)) /\
  (forall text data,
     fs csv_file = Some text -> DictReader text = Ok data ->
     fs template_file = None ->
     run = ([Mailer.EPrintErr ("Error: " ++ template_file ++ " not found.")],
            Mailer.Exits 1)).
Proof.
  unfold Mailer.run_pipeline_files, Mailer.read_csv_data, Mailer.read_template.
  destruct (fs csv_file) as [text|] eqn:Ecsv.
  - destruct (DictReader text) as [data|e] eqn:Edr.
    + destruct (fs template_file) as [template|] eqn:Etpl; simpl.
      * split; [|split].
        -- intros e _ _. exists text, data, template. repeat split; assumption.
        -- discriminate.
        -- discriminate.
      * split; [|split].
        -- intros e [<-|[]] [H|[prompt H]]; discriminate.
        -- discriminate.
        -- reflexivity.
    + simpl. split; [|split].
      * intros x [].
      * discriminate.
      * intros text' data' Ht Hd. injection Ht as <-. congruence.
  - simpl. split; [|split].
    + intros e [<-|[]] [H|[prompt H]]; discriminate.
    + reflexivity.
    + discriminate.
Qed.

(** * A curator run that stops midway *)

Lemma lazy_map_stops {A B : Type} (f : A -> result B) (pre post : list A)
      (bad : A) (out : list B) (e : exn) :
  Forall2 (fun a b => f a = Ok b) pre out ->
  f bad = Raise e ->
  lazy_map f (iter (pre ++ bad :: post)) = yield_then out (SRaise e).
Proof.
  intros Hpre Hbad. induction Hpre as [|a b pre out Hab _ IH]; simpl.
  - rewrite Hbad. reflexivity.
  - rewrite Hab, IH. reflexivity.
Qed.

Lemma writerows_yield_then (rows : list row) (e : exn)
      (written : list (list string)) :
  Forall (fun r => incl (dict_keys r) Curator.fieldnames) rows ->
  Curator.writerows (yield_then rows (SRaise e)) written =
    ((written ++ map record_of rows)%list, Raise e).
Proof.
  revert written. induction rows as [|r rows IH]; intros written H; simpl.
  - rewrite app_nil_r. reflexivity.
  - inversion H as [|? ? Hr Hrows]; subst.
    rewrite (dict_to_list_ok r Hr), IH by exact Hrows.
    rewrite <- app_assoc. reflexivity.
Qed.

(** X22. Rows are written as they are transformed: when the destination
    is the standard output or a file that opens, the rows have distinct
    Emails, a row cannot be transformed and the curated rows before it
    carry no column outside the five of the output, the destination
    already holds the header and the records of all rows before that row,
    a file is closed, and the run ends with the exception of that row; no
    later row is written. *)
Theorem run_pipeline_partial_output (pre post out : list row) (bad : row)
        (e : exn) (name : string) :
  opens open_error name ->
  Forall (fun r => row_email r <> None) (pre ++ bad :: post) ->
  NoDup (map row_email (pre ++ bad :: post)) ->
  Forall2 (fun r r' => curate_row r = Ok r') pre out ->
  Forall (fun r => incl (dict_keys r) Curator.fieldnames) out ->
  curate_row bad = Raise e ->
  Curator.run_pipeline open_error (pre ++ bad :: post) name =
    (Some (Curator.mkOutput
             (if names_stdout name
              then Curator.Stdout else Curator.File name)
             (Curator.fieldnames :: map record_of out)
             (negb (names_stdout name))),
     Raise e).
Proof.
  intros Hopen Hemail Hnd Hpre Hkeys Hbad. unfold Curator.run_pipeline.
  rewrite (remove_duplicates_unique _ Hemail Hnd). cbv beta iota zeta.
  unfold Curator.find_country_names, Curator.split_names.
  rewrite lazy_map_compose. fold curate_row.
  rewrite (lazy_map_stops curate_row pre post bad out e Hpre Hbad).
  rewrite (print_output_file_opens open_error name _ Hopen).
  rewrite (writerows_yield_then out e [Curator.fieldnames] Hkeys).
  reflexivity.
Qed.
End Further.

(** * The further properties on concrete inputs *)

Lemma run_pipeline_missing_email_witness :
  Curator.run_pipeline always_opens
    [[("Nome", Str "Ana"); ("Email", Str "ana@x.br")]; [("Nome", Str "Bob")]]
    "out.csv" = (None, Raise (KeyError "Email")).
Proof.
  apply (proj1 (run_pipeline_missing_email always_opens
                  [[("Nome", Str "Ana"); ("Email", Str "ana@x.br")];
                   [("Nome", Str "Bob")]] "out.csv")).
  apply Exists_cons_tl. apply Exists_cons_hd. reflexivity.
Defined.

Lemma remove_duplicates_only_drops_witness :
  (forall r,
     In r [[("Nome", Str "Y"); ("Email", Str "a@x.br")];
           [("Nome", Str "Z"); ("Email", Str "b@x.br")]] ->
     In r [[("Nome", Str "X"); ("Email", Str "a@x.br")];
           [("Nome", Str "Z"); ("Email", Str "b@x.br")];
           [("Nome", Str "Y"); ("Email", Str "a@x.br")]]) /\
  2 <= 3 /\
  (forall e,
     In e (map row_email
             [[("Nome", Str "Y"); ("Email", Str "a@x.br")];
              [("Nome", Str "Z"); ("Email", Str "b@x.br")]]) <->
     In e (map row_email
             [[("Nome", Str "X"); ("Email", Str "a@x.br")];
              [("Nome", Str "Z"); ("Email", Str "b@x.br")];
              [("Nome", Str "Y"); ("Email", Str "a@x.br")]])).
Proof.
  apply (remove_duplicates_only_drops
           [[("Nome", Str "X"); ("Email", Str "a@x.br")];
            [("Nome", Str "Z"); ("Email", Str "b@x.br")];
            [("Nome", Str "Y"); ("Email", Str "a@x.br")]]
           [[("Nome", Str "Y"); ("Email", Str "a@x.br")];
            [("Nome", Str "Z"); ("Email", Str "b@x.br")]]).
  reflexivity.
Defined.

Lemma remove_duplicates_idempotent_witness :
  Curator.remove_duplicates
    [[("Nome", Str "Y"); ("Email", Str "a@x.br")];
     [("Nome", Str "Z"); ("Email", Str "b@x.br")]] =
  Ok [[("Nome", Str "Y"); ("Email", Str "a@x.br")];
      [("Nome", Str "Z"); ("Email", Str "b@x.br")]].
Proof.
  apply (remove_duplicates_idempotent
           [[("Nome", Str "X"); ("Email", Str "a@x.br")];
            [("Nome", Str "Z"); ("Email", Str "b@x.br")];
            [("Nome", Str "Y"); ("Email", Str "a@x.br")]]).
  reflexivity.
Defined.

Lemma split_names_reconstructs_nome_witness :
  exists r' first surname,
    Curator.split_names_transform
      [("Nome", Str "Maria Silva Santos"); ("Email", Str "maria@x.br")] = Ok r' /\
    getitem "FirstName" r' = Ok (Str first) /\
    getitem "Surname" r' = Ok (Str surname) /\
    has_char " " first = false /\
    "Maria Silva Santos" =
      (if has_char " " "Maria Silva Santos"
       then first ++ " " ++ surname else first) /\
    (has_char " " "Maria Silva Santos" = false -> surname = "").
Proof.
  apply (split_names_reconstructs_nome
           [("Nome", Str "Maria Silva Santos"); ("Email", Str "maria@x.br")]
           "Maria Silva Santos").
  reflexivity.
Defined.

Lemma find_country_names_two_characters_witness :
  exists country,
    getitem "Country"
      [("Nome", Str "X"); ("Email", Str "x@foo.com"); ("Country", Str "br")] =
      Ok (Str country) /\
    String.length country = 2 /\
    has_char "." country = false.
Proof.
  apply (find_country_names_two_characters
           [("Nome", Str "X"); ("Email", Str "x@foo.com")]).
  reflexivity.
Defined.

Lemma curate_row_keeps_columns_witness :
  dict_keys
    [("Country", Str "br"); ("Email", Str "ana@x.br"); ("Nome", Str "Ana Lima");
     ("FirstName", Str "Ana"); ("Surname", Str "Lima")] =
    (dict_keys
       [("Country", Str "xx"); ("Email", Str "ana@x.br");
        ("Nome", Str "Ana Lima")]
       ++ filter (fun k =>
                    negb (mem string_dec k
                            (dict_keys
                               [("Country", Str "xx"); ("Email", Str "ana@x.br");
                                ("Nome", Str "Ana Lima")])))
            ["FirstName"; "Surname"; "Country"])%list /\
  (NoDup (dict_keys
            [("Country", Str "xx"); ("Email", Str "ana@x.br");
             ("Nome", Str "Ana Lima")]) ->
   NoDup (dict_keys
            [("Country", Str "br"); ("Email", Str "ana@x.br");
             ("Nome", Str "Ana Lima"); ("FirstName", Str "Ana");
             ("Surname", Str "Lima")])).
Proof.
  apply (curate_row_keeps_columns
           [("Country", Str "xx"); ("Email", Str "ana@x.br");
            ("Nome", Str "Ana Lima")]).
  reflexivity.
Defined.

Lemma print_output_file_handle_witness :
  exists o,
    fst (Curator.print_output_file always_opens "StdOut"
           (iter [[("Nome", Str "Ana"); ("Phone", Str "1")]])) = Some o /\
    Curator.out_sink o = Curator.Stdout /\
    Curator.out_closed o = false.
Proof.
  destruct (print_output_file_records_and_handle always_opens "StdOut"
              (iter [[("Nome", Str "Ana"); ("Phone", Str "1")]]))
    as [_ [H _]].
  apply H. right. reflexivity.
Defined.

Lemma print_output_file_outcome_witness :
  snd (Curator.print_output_file always_opens "out.csv"
         (iter [[("Nome", Str "Ana"); ("Email", Str "ana@x.br")]])) = Ok tt.
Proof.
  destruct (print_output_file_outcome always_opens "out.csv"
              (iter [[("Nome", Str "Ana"); ("Email", Str "ana@x.br")]]))
    as [o [pre [rest [_ [_ [_ [_ [_ H]]]]]]]].
  - right. reflexivity.
  - apply H. split; [reflexivity|].
    apply Forall_cons; [|apply Forall_nil]. intros k Hk. simpl in *. tauto.
Defined.

Lemma curate_unique_emails_witness :
  NoDup (map row_email
           [[("Nome", Str "Y Z"); ("Email", Str "a@x.uk"); ("FirstName", Str "Y");
             ("Surname", Str "Z"); ("Country", Str "uk")]]) /\
  (forall e,
     In e (map row_email
             [[("Nome", Str "Y Z"); ("Email", Str "a@x.uk");
               ("FirstName", Str "Y"); ("Surname", Str "Z");
               ("Country", Str "uk")]]) <->
     In e (map row_email
             [[("Nome", Str "X"); ("Email", Str "a@x.uk")];
              [("Nome", Str "Y Z"); ("Email", Str "a@x.uk")]])) /\
  1 <= 2 /\
  (forall r',
     In r' [[("Nome", Str "Y Z"); ("Email", Str "a@x.uk"); ("FirstName", Str "Y");
             ("Surname", Str "Z"); ("Country", Str "uk")]] ->
     exists r,
       In r [[("Nome", Str "X"); ("Email", Str "a@x.uk")];
             [("Nome", Str "Y Z"); ("Email", Str "a@x.uk")]] /\
       curate_row r = Ok r').
Proof.
  apply (curate_unique_emails
           [[("Nome", Str "X"); ("Email", Str "a@x.uk")];
            [("Nome", Str "Y Z"); ("Email", Str "a@x.uk")]]
           [[("Nome", Str "Y Z"); ("Email", Str "a@x.uk"); ("FirstName", Str "Y");
             ("Surname", Str "Z"); ("Country", Str "uk")]]).
  reflexivity.
Defined.

Lemma main_finishes_witness :
  List.length ["curate_mailing_list.py"; "in.csv"; "-"] = 3 /\
  opens always_opens (nth 2 ["curate_mailing_list.py"; "in.csv"; "-"] "") /\
  exists text data out,
    (fun path => if String.eqb path "in.csv" then Some "Nome,Email" else None)
      (nth 1 ["curate_mailing_list.py"; "in.csv"; "-"] "") = Some text /\
    (fun _ : string => Ok [[("Nome", Str "Ana"); ("Email", Str "ana@x.br")]])
      text = Ok data /\
    Curator.curate data = Ok out /\
    Forall (fun r => incl (dict_keys r) Curator.fieldnames) out.
Proof.
  apply (proj1 (main_finishes_iff always_opens
                  (fun _ => Ok [[("Nome", Str "Ana"); ("Email", Str "ana@x.br")]])
                  (fun path =>
                     if String.eqb path "in.csv" then Some "Nome,Email" else None)
                  ["curate_mailing_list.py"; "in.csv"; "-"])).
  reflexivity.
Defined.

Lemma main_missing_file_witness :
  1 = 1 /\
  Curator.run_output
    (Curator.main always_opens (fun _ => Ok []) (fun _ => None)
       ["curate_mailing_list.py"; "in.csv"; "out.csv"]) = None /\
  List.length
    (Curator.run_stderr
       (Curator.main always_opens (fun _ => Ok []) (fun _ => None)
          ["curate_mailing_list.py"; "in.csv"; "out.csv"])) = 1 /\
  (List.length ["curate_mailing_list.py"; "in.csv"; "out.csv"] <> 3 \/
   (fun _ : string => @None string)
     (nth 1 ["curate_mailing_list.py"; "in.csv"; "out.csv"] "") = None).
Proof.
  destruct (main_opens_destination_late always_opens (fun _ => Ok []) (fun _ => None)
              ["curate_mailing_list.py"; "in.csv"; "out.csv"]) as [_ H].
  apply (H 1). reflexivity.
Defined.


Lemma send_batch_live_accepting_witness :
  Mailer.send_batch verbatim_header
    (Mailer.mkServer None None (fun _ _ => None) (fun _ _ => None) None)
    (iter [Mailer.mkEmail "Chamada de Trabalhos: SBLP 2026" Mailer.SENDER_ADDR
             (Str "ana@x.br") "Hello Ana!"])
    "smtp.dcc.ufmg.br" Mailer.SENDER_ADDR (Some "pw") false =
  ([Mailer.EConnect "smtp.dcc.ufmg.br" 587; Mailer.EStartTLS;
    Mailer.ELogin Mailer.SENDER_ADDR (Some "pw");
    Mailer.ESendMessage
      (Mailer.mkEmail "Chamada de Trabalhos: SBLP 2026" Mailer.SENDER_ADDR
         (Str "ana@x.br") "Hello Ana!");
    Mailer.EPrint "Sent to: ana@x.br"; Mailer.ESleep 2; Mailer.EClose],
   Mailer.Returns).
Proof.
  apply (send_batch_live_accepting verbatim_header
           (Mailer.mkServer None None (fun _ _ => None) (fun _ _ => None) None)
           (iter [Mailer.mkEmail "Chamada de Trabalhos: SBLP 2026"
                    Mailer.SENDER_ADDR (Str "ana@x.br") "Hello Ana!"])
           "smtp.dcc.ufmg.br" Mailer.SENDER_ADDR (Some "pw"));
    reflexivity.
Defined.

Lemma send_batch_stops_at_refusal_witness :
  send_calls
    (fst (Mailer.send_batch verbatim_header
            (Mailer.mkServer None None (fun _ _ => None)
               (fun j _ => if (j =? 1)%nat then Some (OtherError "550") else None)
              None)
            (iter ([Mailer.mkEmail "S" "f@x.br" (Str "a@x.br") "A"]
                     ++ Mailer.mkEmail "S" "f@x.br" (Str "b@x.br") "B"
                     :: [Mailer.mkEmail "S" "f@x.br" (Str "c@x.br") "C"]))
            "smtp.dcc.ufmg.br" "f@x.br" (Some "pw") false)) =
  ([Mailer.mkEmail "S" "f@x.br" (Str "a@x.br") "A"]
     ++ [Mailer.mkEmail "S" "f@x.br" (Str "b@x.br") "B"])%list.
Proof.
  apply (send_batch_stops_at_refusal verbatim_header
           (Mailer.mkServer None None (fun _ _ => None)
              (fun j _ => if (j =? 1)%nat then Some (OtherError "550") else None)
              None)
           [Mailer.mkEmail "S" "f@x.br" (Str "a@x.br") "A"]
           [Mailer.mkEmail "S" "f@x.br" (Str "c@x.br") "C"]
           (Mailer.mkEmail "S" "f@x.br" (Str "b@x.br") "B")
           "smtp.dcc.ufmg.br" "f@x.br" (Some "pw") (OtherError "550")).
  - reflexivity.
  - reflexivity.
  - reflexivity.
  - intros j m Hj. simpl in Hj. destruct j; [reflexivity | lia].
  - reflexivity.
  - reflexivity.
Defined.

Lemma send_batch_session_discipline_witness :
  filter is_network
    (fst (Mailer.send_batch verbatim_header
            (Mailer.mkServer None (Some (OtherError "no TLS"))
               (fun _ _ => None) (fun _ _ => None) None)
            (iter [Mailer.mkEmail "S" "f@x.br" (Str "a@x.br") "A"])
            "smtp.dcc.ufmg.br" "f@x.br" (Some "pw") false)) =
  [Mailer.EConnect "smtp.dcc.ufmg.br" 587; Mailer.EStartTLS; Mailer.EClose].
Proof.
  destruct (send_batch_session_discipline verbatim_header
              (Mailer.mkServer None (Some (OtherError "no TLS"))
                 (fun _ _ => None) (fun _ _ => None) None)
              (iter [Mailer.mkEmail "S" "f@x.br" (Str "a@x.br") "A"])
              "smtp.dcc.ufmg.br" "f@x.br" (Some "pw")) as [_ [H _]].
  apply H; [reflexivity | discriminate].
Defined.


Lemma run_pipeline_sends_only_brazilians_witness :
  false = false /\
  exists r,
    In r [[("FirstName", Str "Bob"); ("Email", Str "bob@x.uk");
           ("Country", Str "uk")];
          [("FirstName", Str "Ana"); ("Email", Str "ana@x.br");
           ("Country", Str "br")]] /\
    getitem "Country" r = Ok (Str "br") /\
    Mailer.create_email r "Hello <FirstName>!" Mailer.SENDER_ADDR =
      Ok (Mailer.mkEmail "Chamada de Trabalhos: SBLP 2026" Mailer.SENDER_ADDR
            (Str "ana@x.br") "Hello Ana!").
Proof.
  apply (run_pipeline_sends_only_brazilians verbatim_header
           (Mailer.mkServer None None (fun _ _ => None) (fun _ _ => None) None) "pw"
           [[("FirstName", Str "Bob"); ("Email", Str "bob@x.uk");
             ("Country", Str "uk")];
            [("FirstName", Str "Ana"); ("Email", Str "ana@x.br");
             ("Country", Str "br")]]
           "Hello <FirstName>!" Mailer.SENDER_ADDR false).
  vm_compute. left. reflexivity.
Defined.

Lemma run_pipeline_files_missing_csv_witness :
  Mailer.run_pipeline_files verbatim_header (fun _ => Ok []) (fun _ => None)
    (Mailer.mkServer None None (fun _ _ => None) (fun _ _ => None) None) "pw"
    "list.csv" "call.txt" Mailer.SENDER_ADDR false =
  ([Mailer.EPrintErr "Error: list.csv not found."], Mailer.Exits 1).
Proof.
  destruct (run_pipeline_files_needs_both_files verbatim_header (fun _ => Ok []) (fun _ => None)
              (Mailer.mkServer None None (fun _ _ => None) (fun _ _ => None) None)
              "pw" "list.csv" "call.txt" Mailer.SENDER_ADDR false)
    as [_ [H _]].
  apply H. reflexivity.
Defined.

Lemma run_pipeline_partial_output_witness :
  Curator.run_pipeline always_opens
    ([[("Nome", Str "Ana Lima"); ("Email", Str "ana@x.br")]]
       ++ [("Nome", Str "Bob"); ("Email", PyNone)]
       :: [[("Nome", Str "Carla"); ("Email", Str "carla@x.br")]])
    "out.csv" =
  (Some (Curator.mkOutput (Curator.File "out.csv")
           [Curator.fieldnames; ["Ana Lima"; "Ana"; "Lima"; "ana@x.br"; "br"]]
           true),
   Raise AttributeError).
Proof.
  apply (run_pipeline_partial_output always_opens
           [[("Nome", Str "Ana Lima"); ("Email", Str "ana@x.br")]]
           [[("Nome", Str "Carla"); ("Email", Str "carla@x.br")]]
           [[("Nome", Str "Ana Lima"); ("Email", Str "ana@x.br");
             ("FirstName", Str "Ana"); ("Surname", Str "Lima");
             ("Country", Str "br")]]
           [("Nome", Str "Bob"); ("Email", PyNone)]
           AttributeError "out.csv").
  - right. reflexivity.
  - repeat constructor; vm_compute; discriminate.
  - vm_compute.
    repeat (constructor; [simpl; intuition discriminate|]). constructor.
  - apply Forall2_cons; [reflexivity | apply Forall2_nil].
  - apply Forall_cons; [|apply Forall_nil]. intros k Hk. simpl in *. tauto.
  - reflexivity.
Defined.

Lemma send_batch_quit_refused_witness :
  exists t,
    Mailer.send_batch verbatim_header
      (Mailer.mkServer None None (fun _ _ => None) (fun _ _ => None)
         (Some "(421, b'closing')"))
      (iter [Mailer.mkEmail "S" "f@x.br" (Str "a@x.br") "A"])
      "smtp.dcc.ufmg.br" "f@x.br" (Some "pw") false =
      ((t ++ [Mailer.EClose;
              Mailer.EPrintErr
                ("An unexpected error occurred: " ++ "(421, b'closing')")])%list,
       Mailer.Exits 1) /\
    t = [Mailer.EConnect "smtp.dcc.ufmg.br" 587; Mailer.EStartTLS;
         Mailer.ELogin "f@x.br" (Some "pw");
         Mailer.ESendMessage (Mailer.mkEmail "S" "f@x.br" (Str "a@x.br") "A");
         Mailer.EPrint "Sent to: a@x.br"; Mailer.ESleep 2].
Proof.
  destruct (send_batch_quit_refused verbatim_header
              (Mailer.mkServer None None (fun _ _ => None) (fun _ _ => None)
                 (Some "(421, b'closing')"))
              (iter [Mailer.mkEmail "S" "f@x.br" (Str "a@x.br") "A"])
              "smtp.dcc.ufmg.br" "f@x.br" (Some "pw") "(421, b'closing')"
              eq_refl eq_refl) as [t [E H]].
  exists t. split; [exact E|].
  apply H; reflexivity.
Defined.
